(** * PromptAssistant (src/app.py): streaming reconstruction and the
    conversation store, embedded in Rocq.

    Python [str] values are sequences of code points; they are modelled as
    [text := list Z].  String constants of the source are written as UTF-8
    literals and decoded with [py].  Conversation ids, roles and timestamps
    are plain [string]s, as the code only compares and stores them.
    Wall-clock readings ([time.time()]) are inputs, in milliseconds. *)

From Stdlib Require Import String Ascii ZArith.
From stdpp Require Import base list gmap strings sorting.

Open Scope Z_scope.

Abbreviation text := (list Z).

(** ** Python strings *)

(** Decoding of a UTF-8 byte sequence into code points. *)
Fixpoint utf8_dec (bs : list Z) : list Z :=
  match bs with
  | [] => []
  | b0 :: r0 =>
      if b0 <? 128 then b0 :: utf8_dec r0
      else if b0 <? 224 then
        match r0 with
        | b1 :: r1 => Z.lor (Z.shiftl (Z.land b0 31) 6) (Z.land b1 63) :: utf8_dec r1
        | [] => []
        end
      else if b0 <? 240 then
        match r0 with
        | b1 :: b2 :: r2 =>
            Z.lor (Z.shiftl (Z.land b0 15) 12)
              (Z.lor (Z.shiftl (Z.land b1 63) 6) (Z.land b2 63)) :: utf8_dec r2
        | _ => []
        end
      else
        match r0 with
        | b1 :: b2 :: b3 :: r3 =>
            Z.lor (Z.shiftl (Z.land b0 7) 18)
              (Z.lor (Z.shiftl (Z.land b1 63) 12)
                 (Z.lor (Z.shiftl (Z.land b2 63) 6) (Z.land b3 63))) :: utf8_dec r3
        | _ => []
        end
  end.

(** A Python string literal of the source. *)
Definition py (s : string) : text :=
  utf8_dec (map (fun a => Z.of_nat (nat_of_ascii a)) (list_ascii_of_string s)).

Definition NL : text := [10].

(** [len(s)]. *)
Definition py_len (s : text) : Z := Z.of_nat (length s).

(** [str.isspace] on one code point (the characters [str.strip()] removes). *)
Definition py_isspace (c : Z) : bool :=
  ((9 <=? c) && (c <=? 13)) || ((28 <=? c) && (c <=? 32)) || (c =? 133) ||
  (c =? 160) || (c =? 5760) || ((8192 <=? c) && (c <=? 8202)) ||
  (c =? 8232) || (c =? 8233) || (c =? 8239) || (c =? 8287) || (c =? 12288).

(** [s.strip(chars)] with the stripped characters given as a predicate. *)
Fixpoint lstrip_by (p : Z -> bool) (s : text) : text :=
  match s with
  | [] => []
  | c :: r => if p c then lstrip_by p r else s
  end.

Definition strip_by (p : Z -> bool) (s : text) : text :=
  reverse (lstrip_by p (reverse (lstrip_by p s))).

(** [s.strip()]. *)
Definition py_strip (s : text) : text := strip_by py_isspace s.

Definition text_eqb (a b : text) : bool := bool_decide (a = b).

(** ** Stream reconstructor: [process_stream_response] (app.py 43-82) *)

(** One chunk of the stream: [delta.reasoning_content], [delta.content]
    ([None] when absent or [None]) and the [time.time()] read at line 65. *)
Record chunk := mkChunk {
  ch_reasoning : option text;
  ch_content : option text;
  ch_time : Z
}.

(** The generator's local variables. *)
Record rstate := mkRstate {
  full_response : text;
  reasoning : text;
  buffer : text;
  last_yield_time : Z;
  char_count : Z
}.

(** A yielded [(reasoning, full_response)] pair. *)
Definition snapshot : Type := text * text.

Definition rstate_init (t0 : Z) : rstate :=
  {| full_response := []; reasoning := []; buffer := [];
     last_yield_time := t0; char_count := 0 |}.

(** ['\n', '。', '！', '？', '.', '!', '?'] *)
Definition punctuation : list text :=
  [NL; [12290]; [65281]; [65311]; [46]; [33]; [63]].

(** [content in [...]] *)
Definition in_punctuation (content : text) : bool :=
  existsb (text_eqb content) punctuation.

(** [should_yield], with times in milliseconds (the source's [0.03] s). *)
Definition should_yield (current_time last_time count : Z) (content : text) : bool :=
  (30 <=? current_time - last_time) || (5 <=? count) || in_punctuation content.

(** The body of the [for chunk in stream] loop. *)
Definition step_chunk (st : rstate) (ch : chunk) : rstate * list snapshot :=
  let '(st1, ys1) :=
    match ch_reasoning ch with
    | Some rc =>
        let st' := {| full_response := full_response st;
                      reasoning := reasoning st ++ rc;
                      buffer := buffer st;
                      last_yield_time := last_yield_time st;
                      char_count := char_count st |} in
        (st', [(reasoning st', full_response st')])
    | None => (st, [])
    end in
  match ch_content ch with
  | Some content =>
      let full := full_response st1 ++ content in
      let buf := buffer st1 ++ content in
      let cc := char_count st1 + py_len content in
      let current_time := ch_time ch in
      if should_yield current_time (last_yield_time st1) cc content then
        ({| full_response := full; reasoning := reasoning st1; buffer := [];
            last_yield_time := current_time; char_count := 0 |},
         ys1 ++ [(reasoning st1, full)])
      else
        ({| full_response := full; reasoning := reasoning st1; buffer := buf;
            last_yield_time := last_yield_time st1; char_count := cc |}, ys1)
  | None => (st1, ys1)
  end.

Fixpoint run_chunks (st : rstate) (chs : list chunk) : rstate * list snapshot :=
  match chs with
  | [] => (st, [])
  | ch :: rest =>
      let '(st1, ys1) := step_chunk st ch in
      let '(st2, ys2) := run_chunks st1 rest in
      (st2, ys1 ++ ys2)
  end.

(** All snapshots yielded, the trailing [if buffer:] flush included. *)
Definition process_stream_response (t0 : Z) (chs : list chunk) : list snapshot :=
  let '(st, ys) := run_chunks (rstate_init t0) chs in
  ys ++ (if buffer st then [] else [(reasoning st, full_response st)]).

(** Concatenation of the content fragments, in arrival order. *)
Definition all_content (chs : list chunk) : text :=
  mjoin (map (fun ch => default [] (ch_content ch)) chs).

(** ** Turn store: [ConversationManager] (app.py 98-313) *)

(** A stored message [{"role", "content", "timestamp"}]. *)
Record message := mkMessage {
  role : string;
  content : text;
  timestamp : string
}.

(** A conversation record of the index.  ["likes"] and ["dislikes"] may be
    absent from a record loaded from [index.json] ([None]). *)
Record conversation := mkConversation {
  conv_id : string;
  title : text;
  created_at : string;
  updated_at : string;
  messages : list message;
  likes : option Z;
  dislikes : option Z
}.

(** [self.conversations] and [self.current_conversation_id].  Every
    operation takes the [datetime.now()] reading it stores as [now]. *)
Record manager := mkManager {
  conversations : gmap string conversation;
  current_conversation_id : option string
}.

Definition set_messages (c : conversation) (ms : list message) (now : string) : conversation :=
  {| conv_id := conv_id c; title := title c; created_at := created_at c;
     updated_at := now; messages := ms; likes := likes c; dislikes := dislikes c |}.

Definition set_title (c : conversation) (t : text) : conversation :=
  {| conv_id := conv_id c; title := t; created_at := created_at c;
     updated_at := updated_at c; messages := messages c; likes := likes c;
     dislikes := dislikes c |}.

Definition default_title : text := py "新对话".

(** [create_conversation]; [cid] is [str(int(time.time()))]. *)
Definition create_conversation (cid now : string) (ot : option text)
    (m : manager) : string * manager :=
  let t := match ot with Some ((_ :: _) as t) => t | _ => default_title end in
  (cid, {| conversations :=
             <[cid := {| conv_id := cid; title := t; created_at := now;
                         updated_at := now; messages := []; likes := Some 0;
                         dislikes := Some 0 |}]> (conversations m);
           current_conversation_id := Some cid |}).

(** [not content or content.strip() == ""] *)
Definition blank (c : text) : bool :=
  bool_decide (c = []) || bool_decide (py_strip c = []).

(** [messages[-1]["role"] == role and messages[-1]["content"] == content] *)
Definition is_dup (conv : conversation) (r : string) (c : text) : bool :=
  match last (messages conv) with
  | Some m => String.eqb (role m) r && text_eqb (content m) c
  | None => false
  end.

(** [add_message] *)
Definition add_message (now : string) (convs : gmap string conversation)
    (cid : string) (r : string) (c : text) : bool * gmap string conversation :=
  match convs !! cid with
  | None => (false, convs)
  | Some conv =>
      if blank c then (false, convs)
      else if is_dup conv r c then (true, convs)
        else (true, <[cid := set_messages conv
                               (messages conv ++ [mkMessage r c now]) now]> convs)
  end.

(** [update_last_message] *)
Definition update_last_message (now : string) (convs : gmap string conversation)
    (cid : string) (c : text) : bool * gmap string conversation :=
  match convs !! cid with
  | None => (false, convs)
  | Some conv =>
      match last (messages conv) with
      | None => (false, convs)
      | Some m =>
          (true, <[cid := set_messages conv
                            (removelast (messages conv) ++ [mkMessage (role m) c now])
                            now]> convs)
      end
  end.

(** [remove_last_message] *)
Definition remove_last_message (now : string) (convs : gmap string conversation)
    (cid : string) : bool * gmap string conversation :=
  match convs !! cid with
  | None => (false, convs)
  | Some conv =>
      match messages conv with
      | [] => (false, convs)
      | _ => (true, <[cid := set_messages conv (removelast (messages conv)) now]> convs)
      end
  end.

(** [like_conversation] *)
Definition like_conversation (now : string) (convs : gmap string conversation)
    (cid : string) : bool * gmap string conversation :=
  match convs !! cid with
  | None => (false, convs)
  | Some c =>
      (true, <[cid := {| conv_id := conv_id c; title := title c;
                         created_at := created_at c; updated_at := now;
                         messages := messages c;
                         likes := Some (default 0 (likes c) + 1);
                         dislikes := dislikes c |}]> convs)
  end.

(** [dislike_conversation] *)
Definition dislike_conversation (now : string) (convs : gmap string conversation)
    (cid : string) : bool * gmap string conversation :=
  match convs !! cid with
  | None => (false, convs)
  | Some c =>
      (true, <[cid := {| conv_id := conv_id c; title := title c;
                         created_at := created_at c; updated_at := now;
                         messages := messages c; likes := likes c;
                         dislikes := Some (default 0 (dislikes c) + 1) |}]> convs)
  end.

(** Counter values as [get_conversation_stats] reads them. *)
Definition likes_of (c : conversation) : Z := default 0 (likes c).
Definition dislikes_of (c : conversation) : Z := default 0 (dislikes c).

(** ** Title generation (app.py 141-156, 316-348) *)

(** Outcome of the non-streaming completion request of
    [generate_conversation_title]: it raises (network error, missing choice,
    ...), or returns a message whose [content] may be [None]. *)
Inductive completion :=
  | CompletionRaises
  | CompletionReturns (c : option text).

(** [title.strip(...)] over the double-quote and single-quote characters. *)
Definition is_quote (c : Z) : bool := (c =? 34) || (c =? 39).

(** [generate_conversation_title]; the [except] branch returns ["新对话"]. *)
Definition generate_conversation_title (msgs : list message) (resp : completion) : text :=
  match msgs with
  | [] => default_title
  | _ =>
      match resp with
      | CompletionReturns (Some c) =>
          let t := strip_by is_quote (py_strip c) in
          match t with [] => default_title | _ => t end
      | CompletionReturns None => default_title   (* [None.strip()] raises *)
      | CompletionRaises => default_title
      end
  end.

(** [update_title_with_ai]: its own [except] branch is never reached, since
    [generate_conversation_title] catches every error of the request. *)
Definition update_title_with_ai (convs : gmap string conversation) (cid : string)
    (resp : completion) : bool * gmap string conversation :=
  match convs !! cid with
  | None => (false, convs)
  | Some conv =>
      if (2 <=? length (messages conv))%nat then
        (true, <[cid := set_title conv (generate_conversation_title (messages conv) resp)]> convs)
      else (false, convs)
  end.

(** ** Retry controller and [generate_response] (app.py 351-420) *)

(** What [client.chat.completions.create(..., stream=True)] does on one
    attempt: returns a stream of chunks, or raises with message [str(e)]. *)
Inductive api_result :=
  | ApiStream (chs : list chunk)
  | ApiError (e : text).

(** Effects of the retry loop, in order. *)
Inductive io_event :=
  | Request (attempt_number : nat)
  | Sleep (seconds : nat).

(** How the [while] loop is left. *)
Inductive loop_exit :=
  | Connected (chs : list chunk)
  | Exhausted (e : text)
  | LoopEnded.   (* condition false without [break]; [stream] unbound *)

Definition max_retries : nat := 3.

(** [while retry_count < max_retries: ...]; [attempt n] is the outcome of
    the [n]-th request.  [fuel] bounds the iterations. *)
Fixpoint retry_loop (fuel retry_count : nat) (attempt : nat -> api_result)
    : list io_event * loop_exit :=
  match fuel with
  | O => ([], LoopEnded)
  | S fuel' =>
      if (retry_count <? max_retries)%nat then
        match attempt (S retry_count) with
        | ApiStream chs => ([Request (S retry_count)], Connected chs)
        | ApiError e =>
            let rc := S retry_count in
            if (max_retries <=? rc)%nat then ([Request rc], Exhausted e)
            else
              let '(tr, ex) := retry_loop fuel' rc attempt in
              (Request rc :: Sleep (rc * 2) :: tr, ex)
        end
      else ([], LoopEnded)
  end.

Definition run_retries (attempt : nat -> api_result) : list io_event * loop_exit :=
  retry_loop max_retries 0 attempt.

Definition is_request (ev : io_event) : bool :=
  match ev with Request _ => true | Sleep _ => false end.

(** [final_error_msg] *)
Definition final_error_msg (e : text) : text :=
  py "API调用最终失败: " ++ e ++ NL ++ NL ++ py "可能的解决方案:" ++ NL ++
  py "1. 检查网络连接" ++ NL ++ py "2. 确认API密钥有效" ++ NL ++
  py "3. 尝试使用VPN" ++ NL ++ py "4. 稍后重试".

(** [final_content]: the last non-empty content of the snapshots. *)
Definition final_content (snaps : list snapshot) : text :=
  foldl (fun acc s => match snd s with [] => acc | c => c end) [] snaps.

(** [generate_response] with [stream_mode=True], run to completion by its
    consumer.  It returns every yielded snapshot paired with the manager at
    the moment the snapshot is handed to the caller, and the final manager.
    [new_id] is [str(int(time.time()))] if a conversation must be created;
    [t0] is the reading of [time.time()] when the stream processing starts. *)
Definition generate_response (now new_id : string) (t0 : Z) (message : text)
    (attempt : nat -> api_result) (m : manager)
    : list (snapshot * manager) * manager :=
  let m1 := match current_conversation_id m with
            | Some _ => m
            | None => snd (create_conversation new_id now None m)
            end in
  let cid := default new_id (current_conversation_id m1) in
  let m2 := {| conversations := snd (add_message now (conversations m1) cid "user" message);
               current_conversation_id := current_conversation_id m1 |} in
  match snd (run_retries attempt) with
  | Exhausted e =>
      let msg := final_error_msg e in
      let m3 := {| conversations := snd (add_message now (conversations m2) cid "assistant" msg);
                   current_conversation_id := current_conversation_id m2 |} in
      ([(([], msg), m3)], m3)
  | Connected chs =>
      let snaps := process_stream_response t0 chs in
      let fc := final_content snaps in
      let m3 := match fc with
                | [] => m2
                | _ => {| conversations := snd (add_message now (conversations m2) cid "assistant" fc);
                          current_conversation_id := current_conversation_id m2 |}
                end in
      (map (fun s => (s, m2)) snaps, m3)
  | LoopEnded => ([], m2)   (* not reached: see retry_loop_never_falls_through *)
  end.

(** ** UI handlers: undo and retry (app.py 679-743) *)

(** A chat-history entry [{"role", "content"}]. *)
Definition entry : Type := string * text.

(** [undo_last_message]: returns the new value for the chat display and the
    new index.  When it steps back, that value is a slice of the snapshot
    stack ([inr]), otherwise the chat history it was given ([inl]). *)
Definition undo_last_message (chat_history : list entry)
    (message_history : list (list entry)) (current_index : Z)
    : (list entry + list (list entry)) * Z :=
  if 0 <? current_index then
    let new_index := current_index - 1 in
    (inr (if 0 <=? new_index then take (Z.to_nat (new_index + 1)) message_history else []),
     new_index)
  else (inl chat_history, current_index).

(** One click of the undo button, the returned values fed back as the next
    inputs; a returned snapshot slice ([inr], only when the index was
    positive) leaves the chat display to the caller and is not modelled. *)
Definition undo_step (message_history : list (list entry)) (st : list entry * Z)
    : list entry * Z :=
  match undo_last_message (fst st) message_history (snd st) with
  | (inl c, i) => (c, i)
  | (inr _, i) => (fst st, i)
  end.


Definition last_is_assistant (chat : list entry) : bool :=
  match last chat with Some (r, _) => String.eqb r "assistant" | None => false end.


(** ** Further store operations (app.py 158-175, 263-309) *)

(** [get_conversation_history]: the [{"role", "content"}] entries. *)
Definition get_conversation_history (convs : gmap string conversation) (cid : string)
    : list entry :=
  match convs !! cid with
  | None => []
  | Some conv => map (fun x => (role x, content x)) (messages conv)
  end.

(** [get_conversation_stats] *)
Definition get_conversation_stats (convs : gmap string conversation) (cid : string)
    : Z * Z :=
  match convs !! cid with
  | None => (0, 0)
  | Some c => (default 0 (likes c), default 0 (dislikes c))
  end.

(** [update_conversation_title] *)
Definition update_conversation_title (convs : gmap string conversation) (cid : string)
    (t : text) : bool * gmap string conversation :=
  match convs !! cid with
  | Some c => (true, <[cid := set_title c t]> convs)
  | None => (false, convs)
  end.

(** [ConversationManager.delete_conversation] *)
Definition delete_conversation (convs : gmap string conversation) (cid : string)
    : bool * gmap string conversation :=
  match convs !! cid with
  | Some _ => (true, delete cid convs)
  | None => (false, convs)
  end.

(** [x["updated_at"]] as the sort key, [reverse=True]: [a] may precede [b]. *)
Definition newer_or_same (a b : conversation) : Prop :=
  String.leb (updated_at b) (updated_at a) = true.

#[export] Instance newer_or_same_dec : RelDecision newer_or_same.
Proof. intros a b. unfold newer_or_same. apply _. Defined.

(** [get_all_conversations]: a stable sort of the values by [updated_at],
    newest first.  The dict's insertion order, which decides the order of
    equal keys, is not kept by [gmap]: ties follow the map's own order. *)
Definition get_all_conversations (convs : gmap string conversation) : list conversation :=
  merge_sort newer_or_same (map snd (map_to_list convs)).

(** ** Title request (app.py 322-331) *)

Definition role_label (r : string) : text :=
  if String.eqb r "user" then py "用户" else py "助手".

(** [conversation_text] over [messages[-6:]]. *)
Definition conversation_text (msgs : list message) : text :=
  mjoin (map (fun x => role_label (role x) ++ py ": " ++ content x ++ NL)
             (drop (length msgs - 6) msgs)).

Definition title_system_prompt : text :=
  py "你是一个专业的对话标题生成器。请根据用户和助手的对话内容，生成一个简洁、准确的标题（不超过20个字符）。标题应该概括对话的主要主题或核心问题。只返回标题，不要其他内容。".

(** [title_messages], the request body sent for a title. *)
Definition title_messages (msgs : list message) : list entry :=
  [("system"%string, title_system_prompt);
   ("user"%string, py "请为以下对话生成标题：" ++ NL ++ NL ++ conversation_text msgs)].

(** ** History pairs sent to the model (app.py 554-557, 711-714, 805-808) *)

(** [for i in range(len(chat_history)-1): if chat_history[i] is a user entry
    and chat_history[i+1] an assistant entry: history.append([...])] *)
Fixpoint build_history (chat : list entry) : list (text * text) :=
  match chat with
  | (r1, c1) :: ((r2, c2) :: _) as rest =>
      (if String.eqb r1 "user" && String.eqb r2 "assistant" then [(c1, c2)] else []) ++
      build_history rest
  | _ => []
  end.

(** ** Prompt templates (app.py 16-30, 365-366; update_prompts.py 68-106) *)

(** A template [{"system", "description"}]. *)
Record prompt := mkPrompt { system : text; description : text }.

Definition builtin_default : prompt :=
  mkPrompt (py "你是DeepSeek Chat，一个由DeepSeek开发的人工智能助手，擅长对话和思考。")
           (py "默认系统提示词").

Definition builtin_reasoner : prompt :=
  mkPrompt (py "你是DeepSeek Reasoner，一个专门用于复杂推理和问题解决的人工智能助手。你擅长逻辑推理、数学计算、代码分析、多步骤问题解决等任务。在回答问题时，你会先进行深入的思考和分析，然后提供清晰、准确的答案。请确保你的推理过程逻辑清晰，步骤明确。")
           (py "DeepSeek推理专家").

(** [load_prompts]: [file] is [None] when [prompt.json] does not exist,
    [Some None] when reading or parsing it fails, [Some (Some p)] when it
    parses to [p]. *)
Definition load_prompts (file : option (option (gmap string prompt))) : gmap string prompt :=
  match file with
  | Some (Some p) => p
  | _ => {[ "default" := builtin_default ]}
  end.

(** [prompts.get(prompt_template, prompts["default"])["system"]]: the
    argument [prompts["default"]] is evaluated first and raises [KeyError]
    ([None]) when there is no ["default"] entry. *)
Definition select_system_prompt (prompts : gmap string prompt) (template : string)
    : option text :=
  match prompts !! "default" with
  | None => None
  | Some d => Some (system (default d (prompts !! template)))
  end.

(** [update_prompt_json]: [existing] is [None] when the file is missing or
    unreadable ([existing_prompts = {}]).  The final loop assigns every new
    key, which is the left-biased union [new_prompts ∪ updated_prompts]. *)
Definition update_prompt_json (existing : option (gmap string prompt))
    (new_prompts : gmap string prompt) : gmap string prompt :=
  let ex := default ∅ existing in
  let base := <[ "reasoner" := default builtin_reasoner (ex !! "reasoner") ]>
              {[ "default" := default builtin_default (ex !! "default") ]} in
  new_prompts ∪ base.

(** The [messages] list of the request (app.py 364-375), once the system
    prompt [sys] is selected. *)
Definition request_messages (sys : text) (history : list (text * text)) (message : text)
    : list entry :=
  [("system"%string, sys)] ++
  mjoin (map (fun p => [("user"%string, fst p); ("assistant"%string, snd p)]) history) ++
  [("user"%string, message)].

(** A chat display made of answered turns. *)
Definition pairs_chat (ps : list (text * text)) : list entry :=
  mjoin (map (fun p => [("user"%string, fst p); ("assistant"%string, snd p)]) ps).

(** ** UI handlers: send, edit, delete, load (app.py 536-645, 784-837) *)

(** [if not conversation_id]: [None] and the empty string are falsy. *)
Definition ui_id (o : option string) : option string :=
  match o with
  | Some ((String _ _) as s) => Some s
  | _ => None
  end.

(** [assistant_message["content"]] after the loop over the yields: the last
    non-empty content. *)
Definition streamed_answer (ys : list (snapshot * manager)) : text :=
  foldl (fun acc y => match snd (fst y) with [] => acc | c => c end) [] ys.

(** [respond] with [stream_mode=True], run to completion.  It returns the
    values of its last yield for the chat display, the UI conversation id,
    the snapshot stack and the history index, and the final manager.  When
    it yields nothing (an empty [message] returns before the first yield;
    a stream with no snapshot leaves the loop without one) these outputs
    keep their input values. *)
Definition respond (now new_id : string) (t0 : Z) (attempt : nat -> api_result)
    (title_resp : completion) (message : text) (chat_history : list entry)
    (conversation_id : option string) (message_history : list (list entry))
    (current_index : Z) (m : manager)
    : list entry * option string * list (list entry) * Z * manager :=
  match message with
  | [] => (chat_history, conversation_id, message_history, current_index, m)
  | _ =>
      let '(cid, m0) :=
        match ui_id conversation_id with
        | Some cid => (cid, m)
        | None =>
            let '(cid, m') := create_conversation new_id now None m in
            (cid, {| conversations := conversations m'; current_conversation_id := Some cid |})
        end in
      let chat1 := chat_history ++ [("user"%string, message)] in
      let m1 := {| conversations := snd (add_message now (conversations m0) cid "user" message);
                   current_conversation_id := current_conversation_id m0 |} in
      let new_message_history := message_history ++ [chat1] in
      let new_current_index := Z.of_nat (length new_message_history) - 1 in
      let '(ys, m2) := generate_response now new_id t0 message attempt m1 in
      let answer := streamed_answer ys in
      let chat2 := chat1 ++ [("assistant"%string, answer)] in
      match answer with
      | [] =>
          match ys with
          | [] => (chat_history, conversation_id, message_history, current_index, m2)
          | _ => (chat2, Some cid, new_message_history, new_current_index, m2)
          end
      | _ =>
          let convs3 := snd (update_last_message now (conversations m2) cid answer) in
          let convs4 := snd (update_title_with_ai convs3 cid title_resp) in
          (chat2, Some cid, new_message_history, new_current_index,
           {| conversations := convs4; current_conversation_id := current_conversation_id m2 |})
      end
  end.

(** The backward loop of [save_edited_message] over the chat: the last user
    entry gets the edited content; [None] when there is no user entry. *)
Fixpoint set_last_user (chat : list entry) (e : text) : option (list entry) :=
  match chat with
  | [] => None
  | (r, c) :: rest =>
      match set_last_user rest e with
      | Some rest' => Some ((r, c) :: rest')
      | None => if String.eqb r "user" then Some ((r, e) :: rest) else None
      end
  end.

(** Store calls with the UI id: [None] is not a key of the index, so the
    call returns [False] and changes nothing. *)
Definition on_ui_id (conversation_id : option string)
    (f : string -> gmap string conversation) (convs : gmap string conversation)
    : gmap string conversation :=
  match conversation_id with Some cid => f cid | None => convs end.

(** [save_edited_message] with [stream_mode=True], run to completion; it
    returns the chat history of its last yield (the input history when it
    yields nothing) and the final manager. *)
Definition save_edited_message (now new_id : string) (t0 : Z) (attempt : nat -> api_result)
    (title_resp : completion) (edited_content : text) (chat_history : list entry)
    (conversation_id : option string) (m : manager) : list entry * manager :=
  if bool_decide (edited_content = []) || bool_decide (chat_history = []) then (chat_history, m)
  else
    let '(chat1, m1) :=
      match set_last_user chat_history edited_content with
      | Some c =>
          (c, {| conversations :=
                   on_ui_id conversation_id
                     (fun cid => snd (update_last_message now (conversations m) cid edited_content))
                     (conversations m);
                 current_conversation_id := current_conversation_id m |})
      | None => (chat_history, m)
      end in
    let '(chat2, m2) :=
      if last_is_assistant chat1 then
        (removelast chat1,
         {| conversations :=
              on_ui_id conversation_id
                (fun cid => snd (remove_last_message now (conversations m1) cid))
                (conversations m1);
            current_conversation_id := current_conversation_id m1 |})
      else (chat1, m1) in
    let '(ys, m3) := generate_response now new_id t0 edited_content attempt m2 in
    let answer := streamed_answer ys in
    let chat3 := chat2 ++ [("assistant"%string, answer)] in
    match answer, conversation_id with
    | _ :: _, Some cid =>
        let convs4 := snd (update_last_message now (conversations m3) cid answer) in
        let convs5 := snd (update_title_with_ai convs4 cid title_resp) in
        (chat3, {| conversations := convs5; current_conversation_id := current_conversation_id m3 |})
    | _, _ => (match ys with [] => chat_history | _ => chat3 end, m3)
    end.

(** The UI's [delete_conversation]: the new value of the UI conversation id
    and the manager; [new_id] is [str(int(time.time()))]. *)
Definition delete_conversation_ui (now new_id : string) (conversation_id : option string)
    (m : manager) : string * manager :=
  match ui_id conversation_id with
  | None => (EmptyString, m)
  | Some cid =>
      let convs1 := snd (delete_conversation (conversations m) cid) in
      let '(nid, m2) := create_conversation new_id now None
                          {| conversations := convs1;
                             current_conversation_id := current_conversation_id m |} in
      (nid, {| conversations := conversations m2; current_conversation_id := Some nid |})
  end.

(** [load_conversation]: the chat display, the title box, the statistics
    and the manager. *)
Definition load_conversation (conversation_id : option string) (m : manager)
    : list entry * text * (Z * Z) * manager :=
  match ui_id conversation_id with
  | None => ([], [], (0, 0), m)
  | Some cid =>
      let m1 := {| conversations := conversations m; current_conversation_id := Some cid |} in
      (get_conversation_history (conversations m1) cid,
       match conversations m1 !! cid with Some c => title c | None => [] end,
       get_conversation_stats (conversations m1) cid, m1)
  end.

(** The number of stored user messages. *)
Definition count_users (ms : list message) : nat :=
  length (List.filter (fun x => String.eqb (role x) "user") ms).

(** The most recent snapshot after yielding [ys], [prev] if [ys] is empty. *)
Definition last_or (prev : option snapshot) (ys : list snapshot) : option snapshot :=
  match last ys with Some s => Some s | None => prev end.

(** Whenever nothing is buffered, the last snapshot already shows all the
    content received so far. *)
Definition flush_inv (st : rstate) (prev : option snapshot) : Prop :=
  buffer st = [] ->
  match prev with Some s => snd s = full_response st | None => full_response st = [] end.

(** The fragment's last character is one of the sentence terminators. *)
Definition ends_in_terminator (c : text) : bool :=
  match last c with
  | Some x => in_punctuation [x]
  | None => false
  end.

(** ** Fixtures *)

(** A conversation whose last stored message is the whitespace-only user
    message [" "], as [update_last_message] leaves it after an edit to [" "]. *)
Definition conv_blank_last : conversation :=
  {| conv_id := "1"; title := py "Chat"; created_at := "t0"; updated_at := "t0";
     messages := [mkMessage "user" (py "Hi") "t0"; mkMessage "user" (py " ") "t1"];
     likes := Some 0; dislikes := Some 0 |}.

(** A conversation with one stored user message. *)
Definition conv_hi : conversation :=
  {| conv_id := "1"; title := py "Chat"; created_at := "t0"; updated_at := "t0";
     messages := [mkMessage "user" (py "Hi") "t0"]; likes := Some 0; dislikes := Some 0 |}.

(** An endpoint that fails twice, then answers. *)
Definition flaky_endpoint (n : nat) : api_result :=
  match n with
  | 1%nat => ApiError (py "timeout")
  | 2%nat => ApiError (py "timeout")
  | _ => ApiStream [mkChunk None (Some (py "Hi there.")) 10]
  end.




(** The stored messages of [cid] after [generate_response] in a retry:
    the kept prefix, the user message, at most one assistant message. *)
Definition retry_shape (pre : list message) (ms : list message) : Prop :=
  exists mu tail, ms = pre ++ [mu] ++ tail /\ role mu = "user"%string /\
    Forall (fun x => role x = "assistant"%string) tail /\ (length tail <= 1)%nat.

(** Snapshot [a] is extended by snapshot [b]: both its reasoning and its
    content are prefixes of [b]'s. *)
Definition snap_grows (a b : snapshot) : Prop :=
  fst a `prefix_of` fst b /\ snd a `prefix_of` snd b.

Definition st_snap (st : rstate) : snapshot := (reasoning st, full_response st).

(** * Theorems *)

Example stream_scenario :
  process_stream_response 0
    [mkChunk None (Some (py "H")) 40; mkChunk None (Some (py "i")) 80;
     mkChunk None (Some (py " there.")) 120]
  = [([], py "H"); ([], py "Hi"); ([], py "Hi there.")].
Proof. reflexivity. Qed.

Lemma last_or_app prev ys1 ys2 :
  last_or prev (ys1 ++ ys2) = last_or (last_or prev ys1) ys2.
Proof.
  unfold last_or. rewrite last_app. destruct (last ys2); [done|].
  destruct (last ys1); done.
Qed.

Lemma step_chunk_full st ch :
  full_response (fst (step_chunk st ch)) = full_response st ++ default [] (ch_content ch).
Proof.
  unfold step_chunk.
  destruct (ch_reasoning ch), (ch_content ch) as [c|]; simpl;
    try destruct (should_yield _ _ _ _); simpl; by rewrite ?app_nil_r.
Qed.

Lemma step_chunk_inv st prev ch :
  flush_inv st prev ->
  flush_inv (fst (step_chunk st ch)) (last_or prev (snd (step_chunk st ch))).
Proof.
  unfold flush_inv, step_chunk, last_or. intros Hinv.
  destruct (ch_reasoning ch) as [rc|], (ch_content ch) as [c|]; simpl;
    try destruct (should_yield _ _ _ _); simpl; intros Hb;
    rewrite ?last_app; simpl; try done;
    try (apply app_eq_nil in Hb as [Hb ->]; rewrite app_nil_r);
    first [done | by apply Hinv].
Qed.

Lemma run_chunks_full st chs :
  full_response (fst (run_chunks st chs)) = full_response st ++ all_content chs.
Proof.
  revert st. induction chs as [|ch chs IH]; intros st; simpl.
  - by rewrite app_nil_r.
  - pose proof (step_chunk_full st ch) as Hs.
    destruct (step_chunk st ch) as [st1 ys1] eqn:E1.
    destruct (run_chunks st1 chs) as [st2 ys2] eqn:E2. simpl in *.
    specialize (IH st1). rewrite E2 in IH. simpl in IH.
    rewrite IH, Hs, <-app_assoc. done.
Qed.

Lemma run_chunks_inv st prev chs :
  flush_inv st prev ->
  flush_inv (fst (run_chunks st chs)) (last_or prev (snd (run_chunks st chs))).
Proof.
  revert st prev. induction chs as [|ch chs IH]; intros st prev Hinv; simpl.
  - done.
  - pose proof (step_chunk_inv st prev ch Hinv) as Hs.
    destruct (step_chunk st ch) as [st1 ys1] eqn:E1. simpl in Hs.
    specialize (IH st1 _ Hs).
    destruct (run_chunks st1 chs) as [st2 ys2] eqn:E2. simpl in *.
    by rewrite last_or_app.
Qed.

(** C1: the content of the last snapshot yielded by
    [process_stream_response] is the concatenation, in arrival order, of all
    content fragments, whatever the timing; some snapshot is yielded as soon
    as any content arrived; and when content is still buffered at input
    exhaustion, one final snapshot with the complete content is appended. *)
Theorem process_stream_final_content (t0 : Z) (chs : list chunk) :
  (forall s, last (process_stream_response t0 chs) = Some s -> snd s = all_content chs) /\
  (all_content chs <> [] -> is_Some (last (process_stream_response t0 chs))) /\
  (buffer (fst (run_chunks (rstate_init t0) chs)) <> [] ->
   process_stream_response t0 chs =
     snd (run_chunks (rstate_init t0) chs) ++
     [(reasoning (fst (run_chunks (rstate_init t0) chs)), all_content chs)]).
Proof.
  pose proof (run_chunks_full (rstate_init t0) chs) as Hfull.
  pose proof (run_chunks_inv (rstate_init t0) None chs ltac:(done)) as Hinv.
  unfold process_stream_response.
  destruct (run_chunks (rstate_init t0) chs) as [st ys]. simpl in *.
  unfold flush_inv, last_or in Hinv.
  destruct (buffer st) as [|b bs] eqn:Hb.
  - rewrite app_nil_r. specialize (Hinv eq_refl).
    destruct (last ys) as [s'|]; repeat split.
    + intros s [= <-]. congruence.
    + done.
    + done.
    + done.
    + intros Hne. congruence.
    + done.
  - rewrite last_app. simpl. rewrite Hfull. repeat split.
    + by intros s [= <-].
    + done.
Qed.

Lemma process_stream_final_content_witness :
  (forall s, last (process_stream_response 0
       [mkChunk None (Some (py "H")) 1; mkChunk (Some (py "r")) (Some (py "i")) 2]) = Some s ->
     snd s = py "Hi") /\
  is_Some (last (process_stream_response 0
       [mkChunk None (Some (py "H")) 1; mkChunk (Some (py "r")) (Some (py "i")) 2])).
Proof.
  pose proof (process_stream_final_content 0
       [mkChunk None (Some (py "H")) 1; mkChunk (Some (py "r")) (Some (py "i")) 2])
    as [H1 [H2 _]].
  split; [exact H1 | apply H2; vm_compute; congruence].
Defined.

Lemma step_chunk_count st ch :
  char_count st = py_len (buffer st) ->
  char_count (fst (step_chunk st ch)) = py_len (buffer (fst (step_chunk st ch))).
Proof.
  unfold step_chunk, py_len. intros H.
  destruct (ch_reasoning ch), (ch_content ch) as [c|]; simpl;
    try destruct (should_yield _ _ _ _); simpl; try done;
    rewrite length_app; lia.
Qed.

Lemma run_chunks_count st chs :
  char_count st = py_len (buffer st) ->
  char_count (fst (run_chunks st chs)) = py_len (buffer (fst (run_chunks st chs))).
Proof.
  revert st. induction chs as [|ch chs IH]; intros st H; simpl; [done|].
  pose proof (step_chunk_count st ch H) as Hs.
  destruct (step_chunk st ch) as [st1 ys1]. simpl in Hs.
  specialize (IH st1 Hs). destruct (run_chunks st1 chs). done.
Qed.

(** C3 (as stated, refuted): the fragment ["Hi."] ends in ['.'], arrives
    1 ms after the stream started and carries 3 characters, yet processing it
    yields no snapshot: the punctuation test is [content in [...]], an exact
    match of the whole fragment. *)
Lemma stream_flush_on_terminator_counterexample :
  ends_in_terminator (py "Hi.") = true /\
  snd (step_chunk (rstate_init 0) (mkChunk None (Some (py "Hi.")) 1)) = [].
Proof. split; reflexivity. Qed.

(** C3 (amended): processing a chunk with content fragment [c] yields, after
    the reasoning snapshot if the chunk has reasoning, a content snapshot
    exactly when (a) at least 30 ms passed since the last content-triggered
    snapshot (or the stream start), (b) the characters received since that
    snapshot, [c] included, number at least 5, or (c) [c] is exactly one of
    ['\n', '。', '！', '？', '.', '!', '?']. *)
Theorem stream_content_snapshot_condition (t0 : Z) (chs : list chunk) (ch : chunk) (c : text) :
  ch_content ch = Some c ->
  snd (step_chunk (fst (run_chunks (rstate_init t0) chs)) ch) =
    (match ch_reasoning ch with
     | Some rc => [(reasoning (fst (run_chunks (rstate_init t0) chs)) ++ rc,
                    full_response (fst (run_chunks (rstate_init t0) chs)))]
     | None => []
     end) ++
    (if (30 <=? ch_time ch - last_yield_time (fst (run_chunks (rstate_init t0) chs))) ||
        (5 <=? py_len (buffer (fst (run_chunks (rstate_init t0) chs)) ++ c)) ||
        in_punctuation c
     then [(reasoning (fst (run_chunks (rstate_init t0) chs)) ++ default [] (ch_reasoning ch),
            full_response (fst (run_chunks (rstate_init t0) chs)) ++ c)]
     else []).
Proof.
  intros Hc.
  pose proof (run_chunks_count (rstate_init t0) chs eq_refl) as Hcount.
  destruct (run_chunks (rstate_init t0) chs) as [st ys]. simpl in *.
  unfold step_chunk, should_yield. rewrite Hc.
  assert (Hlen : char_count st + py_len c = py_len (buffer st ++ c)).
  { unfold py_len in *. rewrite length_app. lia. }
  destruct (ch_reasoning ch) as [rc|]; simpl; rewrite Hlen;
    destruct (_ || _ || _); simpl; by rewrite ?app_nil_r.
Qed.

Lemma stream_content_snapshot_condition_witness :
  snd (step_chunk (fst (run_chunks (rstate_init 0) [mkChunk None (Some (py "ab")) 5]))
         (mkChunk None (Some (py "cde")) 10)) = [([], py "abcde")].
Proof.
  rewrite (stream_content_snapshot_condition 0 [mkChunk None (Some (py "ab")) 5]
             (mkChunk None (Some (py "cde")) 10) (py "cde") eq_refl).
  vm_compute. reflexivity.
Defined.

(** ** Turn store *)

Lemma add_message_known now convs cid conv r c :
  convs !! cid = Some conv ->
  add_message now convs cid r c =
    if blank c then (false, convs)
    else if is_dup conv r c then (true, convs)
    else (true, <[cid := set_messages conv (messages conv ++ [mkMessage r c now]) now]> convs).
Proof. intros H. unfold add_message. by rewrite H. Qed.

(** C7 (as stated, refuted): [" "] is non-empty and equals the last stored
    message, yet [add_message] returns [false]: whitespace-only content is
    rejected before the duplicate test. *)
Lemma add_message_duplicate_counterexample :
  last (messages conv_blank_last) = Some (mkMessage "user" (py " ") "t1") /\
  py " " <> [] /\
  add_message "t2" {[ "1" := conv_blank_last ]} "1" "user" (py " ") =
    (false, {[ "1" := conv_blank_last ]}).
Proof. split; [reflexivity | split; [discriminate | vm_compute; reflexivity]]. Qed.

(** C7 (amended): empty or whitespace-only content is always refused:
    [add_message] returns [false] and changes nothing, for any id and even
    when the content equals the last stored message.  For a known
    conversation and content that is neither empty nor whitespace-only,
    [add_message] of a pair equal to the last stored message returns [true]
    and leaves the store unchanged; a second identical append right after
    any append changes nothing; any other append adds [{role, content, now}]
    at the end and sets [updated_at] to [now]. *)
Theorem add_message_dedup (now now' : string) (convs : gmap string conversation)
    (cid : string) (conv : conversation) (r : string) (c : text) :
  (blank c = true -> add_message now convs cid r c = (false, convs)) /\
  (convs !! cid = Some conv -> blank c = false ->
   (forall m, last (messages conv) = Some m -> role m = r -> content m = c ->
      add_message now convs cid r c = (true, convs)) /\
   add_message now' (snd (add_message now convs cid r c)) cid r c =
     (true, snd (add_message now convs cid r c)) /\
   ((forall m, last (messages conv) = Some m -> ~ (role m = r /\ content m = c)) ->
    add_message now convs cid r c =
      (true, <[cid := set_messages conv (messages conv ++ [mkMessage r c now]) now]> convs))).
Proof.
  split.
  { intros Hb. unfold add_message. destruct (convs !! cid); [|done]. by rewrite Hb. }
  intros Hconv Hblank.
  assert (Hdup_last : forall cv, last (messages cv) = Some (mkMessage r c now) ->
            is_dup cv r c = true).
  { intros cv Hl. unfold is_dup. rewrite Hl. simpl. unfold text_eqb.
    by rewrite String.eqb_refl, bool_decide_eq_true_2. }
  rewrite (add_message_known now convs cid conv r c Hconv), Hblank.
  split; [|split].
  - intros m Hm <- <-. unfold is_dup. rewrite Hm. unfold text_eqb.
    by rewrite String.eqb_refl, bool_decide_eq_true_2.
  - destruct (is_dup conv r c) eqn:Hdup; simpl.
    + by rewrite (add_message_known now' convs cid conv r c Hconv), Hblank, Hdup.
    + rewrite (add_message_known now' _ cid _ r c (lookup_insert_eq _ _ _)), Hblank.
      rewrite Hdup_last; [done|]. unfold set_messages. simpl. by rewrite last_app.
  - intros Hnd. unfold is_dup. destruct (last (messages conv)) as [m|] eqn:Hlast; [|done].
    destruct (String.eqb (role m) r) eqn:Hr; simpl; [|done].
    unfold text_eqb. case_bool_decide as Hc; [|done].
    apply String.eqb_eq in Hr. exfalso. by apply (Hnd m).
Qed.

Lemma add_message_dedup_witness :
  add_message "t2" {[ "1" := conv_blank_last ]} "1" "user" (py " ") =
    (false, {[ "1" := conv_blank_last ]}) /\
  add_message "t3" (snd (add_message "t2" {[ "1" := conv_blank_last ]} "1" "user" (py "Ok")))
    "1" "user" (py "Ok") =
  (true, snd (add_message "t2" {[ "1" := conv_blank_last ]} "1" "user" (py "Ok"))).
Proof.
  split.
  - apply (proj1 (add_message_dedup "t2" "t2" {[ "1" := conv_blank_last ]} "1" conv_blank_last
                    "user" (py " "))). vm_compute; reflexivity.
  - apply (proj2 (add_message_dedup "t2" "t3" {[ "1" := conv_blank_last ]} "1" conv_blank_last
                    "user" (py "Ok"))); vm_compute; reflexivity.
Defined.

(** C8 (code defect): [add_message] refuses the whitespace-only content
    [" "] and leaves the message list as it is, but [update_last_message],
    which [save_edited_message] calls with any non-empty edit, stores [" "]
    as the content of the last message without the blank check. *)
Theorem blank_content_persisted_by_update_last_message :
  add_message "t1" {[ "1" := conv_hi ]} "1" "user" (py " ") =
    (false, {[ "1" := conv_hi ]}) /\
  (messages <$> snd (update_last_message "t1" {[ "1" := conv_hi ]} "1" (py " ")) !! "1")
    = Some [mkMessage "user" (py " ") "t1"] /\
  blank (py " ") = true.
Proof. split; [|split]; vm_compute; reflexivity. Qed.

(** C10: [like_conversation] and [dislike_conversation] return [false] and
    change nothing for an unknown id; for a known id they raise their own
    counter by exactly one and set [updated_at], keeping the id, title,
    messages, [created_at], the other counter and every other conversation. *)
Theorem like_dislike_frame (now : string) (convs : gmap string conversation) (cid : string) :
  (convs !! cid = None ->
   like_conversation now convs cid = (false, convs) /\
   dislike_conversation now convs cid = (false, convs)) /\
  (forall c, convs !! cid = Some c ->
   (fst (like_conversation now convs cid) = true /\
    (forall k, k <> cid -> snd (like_conversation now convs cid) !! k = convs !! k) /\
    exists c', snd (like_conversation now convs cid) !! cid = Some c' /\
      likes_of c' = likes_of c + 1 /\ updated_at c' = now /\
      dislikes c' = dislikes c /\ conv_id c' = conv_id c /\ title c' = title c /\
      messages c' = messages c /\ created_at c' = created_at c) /\
   (fst (dislike_conversation now convs cid) = true /\
    (forall k, k <> cid -> snd (dislike_conversation now convs cid) !! k = convs !! k) /\
    exists c', snd (dislike_conversation now convs cid) !! cid = Some c' /\
      dislikes_of c' = dislikes_of c + 1 /\ updated_at c' = now /\
      likes c' = likes c /\ conv_id c' = conv_id c /\ title c' = title c /\
      messages c' = messages c /\ created_at c' = created_at c)).
Proof.
  unfold like_conversation, dislike_conversation. split.
  - intros H. by rewrite H.
  - intros c H. rewrite H. simpl. split; (split; [done|split]).
    + intros k Hk. by rewrite lookup_insert_ne by congruence.
    + eexists. rewrite lookup_insert_eq. split; [done|]. unfold likes_of. simpl.
      repeat split.
    + intros k Hk. by rewrite lookup_insert_ne by congruence.
    + eexists. rewrite lookup_insert_eq. split; [done|]. unfold dislikes_of. simpl.
      repeat split.
Qed.

Lemma like_dislike_frame_witness :
  like_conversation "t1" {[ "1" := conv_hi ]} "2" = (false, {[ "1" := conv_hi ]}) /\
  fst (dislike_conversation "t1" {[ "1" := conv_hi ]} "1") = true.
Proof.
  destruct (like_dislike_frame "t1" {[ "1" := conv_hi ]} "2") as [Hn _].
  destruct (like_dislike_frame "t1" {[ "1" := conv_hi ]} "1") as [_ Hs].
  split.
  - apply Hn. vm_compute. reflexivity.
  - apply (Hs conv_hi). vm_compute. reflexivity.
Defined.

(** C2 (code defect): with two messages and a completion request that
    raises, [update_title_with_ai] still rewrites the title, to ["新对话"],
    and returns [true]: [generate_conversation_title] catches the error
    itself and returns the default title, so the [except] branch of
    [update_title_with_ai] that would keep the title never runs. *)
Theorem update_title_failed_request_resets_title :
  let conv := {| conv_id := "1"; title := py "My chat"; created_at := "t0";
                 updated_at := "t0";
                 messages := [mkMessage "user" (py "Hi") "t0";
                              mkMessage "assistant" (py "Hello") "t0"];
                 likes := Some 0; dislikes := Some 0 |} in
  fst (update_title_with_ai {[ "1" := conv ]} "1" CompletionRaises) = true /\
  (title <$> snd (update_title_with_ai {[ "1" := conv ]} "1" CompletionRaises) !! "1")
    = Some (py "新对话") /\
  py "新对话" <> py "My chat".
Proof. split; [|split]; vm_compute; [reflexivity | reflexivity | discriminate]. Qed.

(** ** Retry controller *)

(** The [while] condition never fails before a [break] or a [return]. *)
Lemma retry_loop_never_falls_through (attempt : nat -> api_result) :
  snd (run_retries attempt) <> LoopEnded.
Proof.
  unfold run_retries. simpl.
  destruct (attempt 1%nat); simpl; [done|].
  destruct (attempt 2%nat); simpl; [done|].
  destruct (attempt 3%nat); simpl; done.
Qed.

(** C4: the loop never sends more than 3 requests; when the first [k]
    attempts fail ([k < 3]) and attempt [k+1] succeeds, the effects are
    request 1, sleep 2 s, request 2, sleep 4 s, ... : [k] sleeps of
    [attempt number * 2] seconds and [k+1] requests, then the stream. *)
Theorem retry_controller_backoff :
  (forall attempt, (length (List.filter is_request (fst (run_retries attempt))) <= 3)%nat) /\
  (forall (k : nat) (attempt : nat -> api_result) (chs : list chunk),
     (k < 3)%nat ->
     (forall i, (1 <= i <= k)%nat -> exists e, attempt i = ApiError e) ->
     attempt (S k) = ApiStream chs ->
     run_retries attempt =
       (mjoin (map (fun i => [Request i; Sleep (i * 2)]) (seq 1 k)) ++ [Request (S k)],
        Connected chs)).
Proof.
  split.
  - intros attempt. unfold run_retries. simpl.
    destruct (attempt 1%nat); simpl; [lia|].
    destruct (attempt 2%nat); simpl; [lia|].
    destruct (attempt 3%nat); simpl; lia.
  - intros k attempt chs Hk Hfail Hok. unfold run_retries.
    destruct k as [|[|[|k]]]; [| | |lia]; simpl in *.
    + by rewrite Hok.
    + destruct (Hfail 1%nat ltac:(lia)) as [e1 ->]. simpl. by rewrite Hok.
    + destruct (Hfail 1%nat ltac:(lia)) as [e1 ->]. simpl.
      destruct (Hfail 2%nat ltac:(lia)) as [e2 ->]. simpl. by rewrite Hok.
Qed.

Lemma retry_controller_backoff_witness :
  run_retries flaky_endpoint =
    ([Request 1; Sleep 2; Request 2; Sleep 4; Request 3],
     Connected [mkChunk None (Some (py "Hi there.")) 10]).
Proof.
  destruct retry_controller_backoff as [_ H].
  apply (H 2%nat flaky_endpoint [mkChunk None (Some (py "Hi there.")) 10]).
  - lia.
  - intros i Hi. destruct i as [|[|[|i]]]; [lia | eexists; reflexivity |
                                             eexists; reflexivity | lia].
  - reflexivity.
Defined.

(** ** Terminal failure of [generate_response] *)

Lemma lstrip_by_app_keep (p : Z -> bool) (l : text) (x : Z) :
  p x = false -> lstrip_by p (l ++ [x]) <> [].
Proof.
  intros Hx. induction l as [|y l IH]; simpl.
  - by rewrite Hx.
  - destruct (p y); [done | discriminate].
Qed.

Lemma strip_by_keep (p : Z -> bool) (x : Z) (s : text) :
  p x = false -> strip_by p (x :: s) <> [].
Proof.
  intros Hx. unfold strip_by. simpl. rewrite Hx.
  rewrite reverse_cons. intros H.
  apply (lstrip_by_app_keep p (reverse s) x Hx).
  destruct (lstrip_by p (reverse s ++ [x])); [done|].
  rewrite reverse_cons in H. by apply app_eq_nil in H as [_ ?].
Qed.

Lemma final_error_msg_not_blank (e : text) : blank (final_error_msg e) = false.
Proof.
  assert (Hh : exists s, final_error_msg e = 65 :: s) by (eexists; reflexivity).
  destruct Hh as [s ->]. unfold blank, py_strip.
  rewrite bool_decide_eq_false_2 by discriminate.
  rewrite bool_decide_eq_false_2; [done|].
  apply strip_by_keep. reflexivity.
Qed.

(** After a successful [add_message] of non-blank content, the conversation
    ends with a message of that role and content. *)
Lemma add_message_last (now : string) (convs : gmap string conversation)
    (cid : string) (conv : conversation) (r : string) (c : text) :
  convs !! cid = Some conv -> blank c = false ->
  exists conv' ts, snd (add_message now convs cid r c) !! cid = Some conv' /\
    last (messages conv') = Some (mkMessage r c ts).
Proof.
  intros Hconv Hb. rewrite (add_message_known now convs cid conv r c Hconv), Hb.
  destruct (is_dup conv r c) eqn:Hdup; simpl.
  - unfold is_dup in Hdup. destruct (last (messages conv)) as [[r' c' ts']|] eqn:Hl;
      [|done].
    simpl in Hdup. apply andb_prop in Hdup as [Hr Hc].
    apply String.eqb_eq in Hr. unfold text_eqb in Hc. apply bool_decide_eq_true_1 in Hc.
    subst. by exists conv, ts'.
  - eexists _, now. rewrite lookup_insert_eq. split; [done|].
    unfold set_messages. simpl. by rewrite last_app.
Qed.

Lemma add_message_keeps (now : string) (convs : gmap string conversation)
    (cid : string) (r : string) (c : text) :
  is_Some (convs !! cid) -> is_Some (snd (add_message now convs cid r c) !! cid).
Proof.
  intros [conv Hconv]. rewrite (add_message_known now convs cid conv r c Hconv).
  destruct (blank c), (is_dup conv r c); simpl; try by eexists.
  rewrite lookup_insert_eq. by eexists.
Qed.

(** C5: when all three requests fail, [generate_response] adds to the
    active conversation, before its only yield hands control back, an
    assistant message whose content is [final_error_msg] of the last error:
    at that yield the conversation already ends with that message. *)
Theorem generate_response_exhausted_materializes_error
    (now new_id : string) (t0 : Z) (message : text) (attempt : nat -> api_result)
    (m : manager) (e1 e2 e3 : text) :
  attempt 1%nat = ApiError e1 -> attempt 2%nat = ApiError e2 -> attempt 3%nat = ApiError e3 ->
  (forall cid, current_conversation_id m = Some cid -> is_Some (conversations m !! cid)) ->
  exists cid conv ts m',
    generate_response now new_id t0 message attempt m = ([(([], final_error_msg e3), m')], m') /\
    current_conversation_id m' = Some cid /\
    conversations m' !! cid = Some conv /\
    last (messages conv) = Some (mkMessage "assistant" (final_error_msg e3) ts).
Proof.
  intros H1 H2 H3 Hcur.
  assert (Hex : snd (run_retries attempt) = Exhausted e3).
  { unfold run_retries. simpl. rewrite H1. simpl. rewrite H2. simpl. by rewrite H3. }
  unfold generate_response. rewrite Hex.
  set (m1 := match current_conversation_id m with
             | Some _ => m
             | None => snd (create_conversation new_id now None m)
             end).
  assert (Hm1 : exists cid, current_conversation_id m1 = Some cid /\
                            is_Some (conversations m1 !! cid)).
  { unfold m1. destruct (current_conversation_id m) as [cid|] eqn:Hc.
    - exists cid. split; [done|]. by apply Hcur.
    - exists new_id. simpl. split; [done|]. rewrite lookup_insert_eq. by eexists. }
  destruct Hm1 as [cid [Hcid Hin]]. rewrite Hcid. simpl.
  pose proof (add_message_keeps now (conversations m1) cid "user" message Hin) as [conv2 Hc2].
  destruct (add_message_last now _ cid conv2 "assistant" (final_error_msg e3) Hc2
              (final_error_msg_not_blank e3)) as [conv3 [ts [Hc3 Hl3]]].
  eexists cid, conv3, ts, _. split; [reflexivity|]. simpl.
  repeat split; done.
Qed.

Lemma generate_response_exhausted_witness :
  exists cid conv ts m',
    generate_response "t1" "100" 0 (py "Hello") (fun _ => ApiError (py "down"))
      {| conversations := ∅; current_conversation_id := None |} =
      ([(([], final_error_msg (py "down")), m')], m') /\
    current_conversation_id m' = Some cid /\
    conversations m' !! cid = Some conv /\
    last (messages conv) = Some (mkMessage "assistant" (final_error_msg (py "down")) ts).
Proof.
  apply (generate_response_exhausted_materializes_error "t1" "100" 0 (py "Hello")
           (fun _ => ApiError (py "down"))
           {| conversations := ∅; current_conversation_id := None |}
           (py "down") (py "down") (py "down")); try reflexivity.
  intros cid Hc. discriminate.
Defined.

(** ** Undo *)

(** C9: at index 0 (or below) [undo_last_message] returns the chat history
    it was given and the same index, so any number of undo clicks leaves the
    index at 0 and the history unchanged.  Its arguments are the chat, the
    snapshot stack and the index only: no manager, no request. *)
Theorem undo_idempotent_at_oldest (chat : list entry) (message_history : list (list entry)) :
  undo_last_message chat message_history 0 = (inl chat, 0) /\
  forall n : nat, Nat.iter n (undo_step message_history) (chat, 0) = (chat, 0).
Proof.
  split; [reflexivity|].
  induction n as [|n IH]; [reflexivity|].
  rewrite Nat.iter_succ, IH. reflexivity.
Qed.

(** ** Retry *)



Lemma last_is_assistant_turn (pre : list entry) (x : entry) (a : text) :
  last_is_assistant (pre ++ [x; ("assistant"%string, a)]) = true.
Proof. unfold last_is_assistant. by rewrite last_app. Qed.


Lemma add_message_same_user now convs cid conv u ts :
  convs !! cid = Some conv -> last (messages conv) = Some (mkMessage "user" u ts) ->
  snd (add_message now convs cid "user" u) = convs.
Proof.
  intros Hc Hl. rewrite (add_message_known now convs cid conv _ _ Hc).
  destruct (blank u); [done|].
  unfold is_dup. rewrite Hl. simpl. unfold text_eqb. by rewrite bool_decide_eq_true_2.
Qed.

(** An assistant message after a user message is appended or refused. *)
Lemma add_message_after_user now convs cid conv x mu :
  convs !! cid = Some conv -> last (messages conv) = Some mu -> role mu = "user"%string ->
  snd (add_message now convs cid "assistant" x) = convs \/
  snd (add_message now convs cid "assistant" x) =
    <[cid := set_messages conv (messages conv ++ [mkMessage "assistant" x now]) now]> convs.
Proof.
  intros Hc Hl Hr. rewrite (add_message_known now convs cid conv _ _ Hc).
  destruct (blank x); [by left|].
  unfold is_dup. rewrite Hl, Hr. simpl. by right.
Qed.

(** [generate_response] on a conversation ending with the same user message
    adds at most one assistant message and nothing else. *)
Lemma generate_response_after_user now new_id t0 u attempt m cid conv ts :
  current_conversation_id m = Some cid -> conversations m !! cid = Some conv ->
  last (messages conv) = Some (mkMessage "user" u ts) ->
  current_conversation_id (snd (generate_response now new_id t0 u attempt m)) = Some cid /\
  ((conversations (snd (generate_response now new_id t0 u attempt m)) = conversations m) \/
   exists x, conversations (snd (generate_response now new_id t0 u attempt m)) =
     <[cid := set_messages conv (messages conv ++ [mkMessage "assistant" x now]) now]>
       (conversations m)).
Proof.
  intros Hcur Hc Hl. unfold generate_response. rewrite Hcur. simpl. rewrite !Hcur. simpl.
  rewrite (add_message_same_user now _ cid conv u ts Hc Hl).
  destruct (snd (run_retries attempt)) as [chs|e|]; simpl.
  - destruct (final_content (process_stream_response t0 chs)) as [|z zs]; simpl.
    + by split; [|left].
    + split; [done|].
      destruct (add_message_after_user now _ cid conv (z :: zs) _ Hc Hl eq_refl) as [H|H];
        rewrite H; [by left | right; by eexists].
  - split; [done|].
    destruct (add_message_after_user now _ cid conv (final_error_msg e) _ Hc Hl eq_refl)
      as [H|H]; rewrite H; [by left | right; by eexists].
  - by split; [|left].
Qed.

Lemma update_last_message_split now convs cid conv ms mlast x :
  convs !! cid = Some conv -> messages conv = ms ++ [mlast] ->
  snd (update_last_message now convs cid x) =
    <[cid := set_messages conv (ms ++ [mkMessage (role mlast) x now]) now]> convs.
Proof.
  intros Hc Hm. unfold update_last_message. rewrite Hc, Hm, last_snoc. simpl.
  by rewrite removelast_app, app_nil_r by discriminate.
Qed.

Lemma update_title_messages convs cid resp k :
  messages <$> snd (update_title_with_ai convs cid resp) !! k = messages <$> convs !! k.
Proof.
  unfold update_title_with_ai. destruct (convs !! cid) as [c|] eqn:Hc; [|done].
  destruct (2 <=? length (messages c))%nat; [|done]. simpl.
  destruct (decide (cid = k)) as [<-|Hne].
  - by rewrite lookup_insert_eq, Hc.
  - by rewrite lookup_insert_ne.
Qed.

Lemma count_users_turn (pre tail : list message) (mu : message) :
  role mu = "user"%string -> Forall (fun x => role x = "assistant"%string) tail ->
  count_users (pre ++ [mu] ++ tail) = S (count_users pre).
Proof.
  intros Hmu Ht. unfold count_users. rewrite !List.filter_app, !length_app.
  assert (Hnil : List.filter (fun x => String.eqb (role x) "user") tail = []).
  { induction Ht as [|x tl Hx _ IH]; [done|]. simpl. by rewrite Hx. }
  rewrite Hnil. simpl. rewrite Hmu. simpl. lia.
Qed.

(** When [generate_response] yields nothing for an active conversation,
    the request succeeded with a stream of no snapshot, and only the user
    message was offered to the store. *)
Lemma generate_response_silent (now new_id : string) (t0 : Z) (message : text)
    (attempt : nat -> api_result) (m : manager) (cid : string) :
  current_conversation_id m = Some cid ->
  fst (generate_response now new_id t0 message attempt m) = [] ->
  exists chs, snd (run_retries attempt) = Connected chs /\
    process_stream_response t0 chs = [] /\
    conversations (snd (generate_response now new_id t0 message attempt m)) =
      snd (add_message now (conversations m) cid "user" message).
Proof.
  intros Hcur. pose proof (retry_loop_never_falls_through attempt) as Hnf.
  unfold generate_response. rewrite Hcur. simpl. rewrite !Hcur. simpl.
  destruct (snd (run_retries attempt)) as [chs|e|]; simpl; [|discriminate|done].
  intros Hys. apply map_eq_nil in Hys. exists chs. rewrite Hys. simpl. by split.
Qed.



(** * Further properties of the code *)

(** ** Store operations *)

Lemma set_messages_messages c ms now : messages (set_messages c ms now) = ms.
Proof. done. Qed.

Lemma remove_last_snoc (now : string) (convs : gmap string conversation) (cid : string)
    (conv : conversation) (ms : list message) (x : message) :
  convs !! cid = Some conv -> messages conv = ms ++ [x] ->
  remove_last_message now convs cid = (true, <[cid := set_messages conv ms now]> convs).
Proof.
  intros Hc Hm. unfold remove_last_message. rewrite Hc, Hm.
  assert (Hr : removelast (ms ++ [x]) = ms)
    by (rewrite removelast_app by discriminate; apply app_nil_r).
  rewrite Hr. destruct (ms ++ [x]) eqn:E; [by destruct ms|]. done.
Qed.

(** [remove_last_message] returns [False] and changes nothing for an
    unknown id or a conversation without messages; otherwise it drops the
    last message of that conversation and of no other. *)
Theorem remove_last_message_spec (now : string) (convs : gmap string conversation)
    (cid : string) :
  (forall k, k <> cid -> snd (remove_last_message now convs cid) !! k = convs !! k) /\
  ((convs !! cid = None \/ messages <$> convs !! cid = Some []) ->
     remove_last_message now convs cid = (false, convs)) /\
  (forall conv ms x, convs !! cid = Some conv -> messages conv = ms ++ [x] ->
     fst (remove_last_message now convs cid) = true /\
     messages <$> snd (remove_last_message now convs cid) !! cid = Some ms).
Proof.
  unfold remove_last_message. split; [|split].
  - intros k Hk. destruct (convs !! cid) as [conv|]; [|done].
    destruct (messages conv); [done|]. simpl. by rewrite lookup_insert_ne.
  - intros [H|H]; [by rewrite H|].
    destruct (convs !! cid) as [conv|]; [|done]. simpl in H.
    injection H as H. by rewrite H.
  - intros conv ms x Hc Hm. fold (remove_last_message now convs cid).
    rewrite (remove_last_snoc now convs cid conv ms x Hc Hm). simpl.
    by rewrite lookup_insert_eq.
Qed.

(** [update_last_message] returns [False] and changes nothing for an
    unknown id or a conversation without messages; otherwise it replaces the
    content of the last message only, keeping its role and every other
    message, and touches no other conversation. *)
Theorem update_last_message_spec (now : string) (convs : gmap string conversation)
    (cid : string) (c : text) :
  (forall k, k <> cid -> snd (update_last_message now convs cid c) !! k = convs !! k) /\
  ((convs !! cid = None \/ messages <$> convs !! cid = Some []) ->
     update_last_message now convs cid c = (false, convs)) /\
  (forall conv ms x, convs !! cid = Some conv -> messages conv = ms ++ [x] ->
     fst (update_last_message now convs cid c) = true /\
     messages <$> snd (update_last_message now convs cid c) !! cid =
       Some (ms ++ [mkMessage (role x) c now])).
Proof.
  split; [|split].
  - intros k Hk. unfold update_last_message. destruct (convs !! cid) as [conv|]; [|done].
    destruct (last (messages conv)); [|done]. simpl. by rewrite lookup_insert_ne.
  - unfold update_last_message. intros [H|H]; [by rewrite H|].
    destruct (convs !! cid) as [conv|]; [|done]. simpl in H.
    injection H as H. by rewrite H.
  - intros conv ms x Hc Hm.
    rewrite (update_last_message_split now convs cid conv ms x c Hc Hm).
    unfold update_last_message. rewrite Hc, Hm, last_snoc. simpl.
    split; [done|]. by rewrite lookup_insert_eq.
Qed.

(** Adding a message that is stored (non-blank, not a repeat of the last
    one) and then removing the last message gives back the conversation's
    messages. *)
Theorem add_then_remove_restores (now now' : string) (convs : gmap string conversation)
    (cid : string) (conv : conversation) (r : string) (c : text) :
  convs !! cid = Some conv -> blank c = false -> is_dup conv r c = false ->
  messages <$> snd (remove_last_message now' (snd (add_message now convs cid r c)) cid) !! cid
    = Some (messages conv).
Proof.
  intros Hc Hb Hd. rewrite (add_message_known now convs cid conv r c Hc), Hb, Hd. simpl.
  rewrite (remove_last_snoc now' _ cid (set_messages conv (messages conv ++ [mkMessage r c now]) now)
             (messages conv) (mkMessage r c now)); [|apply lookup_insert_eq|done].
  simpl. by rewrite lookup_insert_eq.
Qed.

(** Renaming a conversation changes its title only: every history and
    every statistics reading stays the same. *)
Theorem update_conversation_title_observables (convs : gmap string conversation)
    (cid : string) (t : text) (k : string) :
  title <$> snd (update_conversation_title convs cid t) !! cid = (fun _ => t) <$> convs !! cid /\
  fst (update_conversation_title convs cid t) = bool_decide (is_Some (convs !! cid)) /\
  get_conversation_history (snd (update_conversation_title convs cid t)) k =
    get_conversation_history convs k /\
  get_conversation_stats (snd (update_conversation_title convs cid t)) k =
    get_conversation_stats convs k.
Proof.
  unfold update_conversation_title, get_conversation_history, get_conversation_stats.
  destruct (convs !! cid) as [c|] eqn:Hc; cbn [fst snd].
  - rewrite lookup_insert_eq. split; [done|].
    split; [by rewrite bool_decide_eq_true_2 by by eexists|].
    destruct (decide (cid = k)) as [<-|Hne].
    + rewrite lookup_insert_eq, Hc. done.
    + by rewrite lookup_insert_ne.
  - rewrite Hc. split; [done|].
    split; [by rewrite bool_decide_eq_false_2 by by intros [? ?]|]. done.
Qed.

(** [delete_conversation] removes the id, reports whether it was there, and
    leaves every other conversation as it was. *)
Theorem delete_conversation_spec (convs : gmap string conversation) (cid : string) :
  snd (delete_conversation convs cid) !! cid = None /\
  (forall k, k <> cid -> snd (delete_conversation convs cid) !! k = convs !! k) /\
  fst (delete_conversation convs cid) = bool_decide (is_Some (convs !! cid)).
Proof.
  unfold delete_conversation. destruct (convs !! cid) as [c|] eqn:Hc; cbn [fst snd].
  - rewrite lookup_delete_eq. split; [done|]. split.
    + intros k Hk. by rewrite lookup_delete_ne.
    + by rewrite bool_decide_eq_true_2 by by eexists.
  - split; [done|]. split; [done|]. by rewrite bool_decide_eq_false_2 by by intros [? ?].
Qed.

(** [create_conversation] makes its id current and stores an empty
    conversation with zero counters under it, titled ["新对话"] when no
    title or an empty one is given; an existing conversation under the same
    id (two creations within one second) is overwritten, its messages lost.
    Other conversations are kept. *)
Theorem create_conversation_spec (cid now : string) (ot : option text) (m : manager) :
  fst (create_conversation cid now ot m) = cid /\
  current_conversation_id (snd (create_conversation cid now ot m)) = Some cid /\
  get_conversation_history (conversations (snd (create_conversation cid now ot m))) cid = [] /\
  get_conversation_stats (conversations (snd (create_conversation cid now ot m))) cid = (0, 0) /\
  ((ot = None \/ ot = Some []) ->
     title <$> conversations (snd (create_conversation cid now ot m)) !! cid = Some default_title) /\
  (forall t, ot = Some t -> t <> [] ->
     title <$> conversations (snd (create_conversation cid now ot m)) !! cid = Some t) /\
  (forall k, k <> cid ->
     conversations (snd (create_conversation cid now ot m)) !! k = conversations m !! k).
Proof.
  unfold create_conversation, get_conversation_history, get_conversation_stats. simpl.
  rewrite lookup_insert_eq. simpl.
  split; [done|]. split; [done|]. split; [done|]. split; [done|]. split; [|split].
  - intros [H|H]; rewrite H; reflexivity.
  - intros t Ht Hne. rewrite Ht. destruct t; [done|reflexivity].
  - intros k Hk. by rewrite lookup_insert_ne.
Qed.

(** [get_conversation_stats] reads [(0, 0)] for an unknown id, which liking
    or disliking does not change; for a known id a like adds one to the
    likes read and a dislike one to the dislikes read, a counter absent from
    a loaded record counting as 0. *)
Theorem stats_after_like_dislike (now : string) (convs : gmap string conversation)
    (cid : string) :
  (convs !! cid = None ->
     get_conversation_stats (snd (like_conversation now convs cid)) cid = (0, 0) /\
     get_conversation_stats (snd (dislike_conversation now convs cid)) cid = (0, 0)) /\
  (is_Some (convs !! cid) ->
     get_conversation_stats (snd (like_conversation now convs cid)) cid =
       (fst (get_conversation_stats convs cid) + 1, snd (get_conversation_stats convs cid)) /\
     get_conversation_stats (snd (dislike_conversation now convs cid)) cid =
       (fst (get_conversation_stats convs cid), snd (get_conversation_stats convs cid) + 1)).
Proof.
  unfold like_conversation, dislike_conversation, get_conversation_stats. split.
  - intros H. rewrite !H. simpl. by rewrite !H.
  - intros [c Hc]. rewrite !Hc. simpl. by rewrite !lookup_insert_eq.
Qed.

(** The history read back after [add_message]: the old history followed by
    the new entry when the message is stored, the old history when it is
    blank or repeats the last message; other conversations read the same. *)
Theorem history_after_add_message (now : string) (convs : gmap string conversation)
    (cid : string) (conv : conversation) (r : string) (c : text) :
  convs !! cid = Some conv ->
  get_conversation_history (snd (add_message now convs cid r c)) cid =
    get_conversation_history convs cid ++
      (if blank c || is_dup conv r c then [] else [(r, c)]) /\
  (forall k, k <> cid ->
     get_conversation_history (snd (add_message now convs cid r c)) k =
       get_conversation_history convs k).
Proof.
  intros Hc. rewrite (add_message_known now convs cid conv r c Hc).
  unfold get_conversation_history.
  destruct (blank c), (is_dup conv r c); simpl; rewrite ?Hc, ?app_nil_r; try done.
  split.
  - rewrite lookup_insert_eq. simpl. by rewrite map_app.
  - intros k Hk. by rewrite lookup_insert_ne.
Qed.

(** ** Conversation list *)

Lemma newer_or_same_total : Total newer_or_same.
Proof. intros a b. unfold newer_or_same. apply String.leb_total. Qed.

(** [get_all_conversations] lists every stored conversation exactly once,
    and each one is at least as recently updated (by [updated_at]) as the
    one after it. *)
Theorem get_all_conversations_sorted (convs : gmap string conversation) :
  get_all_conversations convs ≡ₚ map snd (map_to_list convs) /\
  Sorted newer_or_same (get_all_conversations convs).
Proof.
  unfold get_all_conversations. split.
  - apply merge_sort_Permutation.
  - apply Sorted_merge_sort; apply newer_or_same_total.
Qed.

(** ** Titles *)

Lemma lstrip_by_head (p : Z -> bool) (s : text) (x : Z) (r : text) :
  lstrip_by p s = x :: r -> p x = false.
Proof.
  induction s as [|y s IH]; simpl; [discriminate|].
  destruct (p y) eqn:Hy; [exact IH|]. by intros [= -> _].
Qed.

Lemma lstrip_by_suffix (p : Z -> bool) (s : text) : exists pre, s = pre ++ lstrip_by p s.
Proof.
  induction s as [|y s [pre IH]]; simpl; [by exists []|].
  destruct (p y); [exists (y :: pre); by rewrite IH at 1 | by exists []].
Qed.

(** The result of [s.strip(chars)] neither starts nor ends with a stripped
    character. *)
Lemma strip_by_ends (p : Z -> bool) (s : text) :
  (forall x, head (strip_by p s) = Some x -> p x = false) /\
  (forall x, last (strip_by p s) = Some x -> p x = false).
Proof.
  unfold strip_by. rewrite head_reverse, last_reverse. split.
  - intros x Hx. destruct (lstrip_by p s) as [|y r] eqn:Hy; [done|].
    pose proof (lstrip_by_head p s y r Hy) as Hpy.
    destruct (lstrip_by_suffix p (reverse (y :: r))) as [pre Hpre].
    rewrite reverse_cons in Hpre, Hx.
    assert (Hl : last (reverse r ++ [y]) = Some y) by apply last_snoc.
    rewrite Hpre, last_app in Hl. rewrite Hx in Hl. by injection Hl as ->.
  - intros x Hx. destruct (lstrip_by p (reverse (lstrip_by p s))) as [|y r] eqn:Hy;
      [done|].
    simpl in Hx. injection Hx as ->. by apply (lstrip_by_head p (reverse (lstrip_by p s)) _ r).
Qed.

(** [generate_conversation_title] never returns an empty title, and the
    title it returns neither starts nor ends with a quote character. *)
Theorem generate_conversation_title_clean (msgs : list message) (resp : completion) :
  generate_conversation_title msgs resp <> [] /\
  (forall x, head (generate_conversation_title msgs resp) = Some x -> is_quote x = false) /\
  (forall x, last (generate_conversation_title msgs resp) = Some x -> is_quote x = false).
Proof.
  assert (Hd : default_title <> [] /\
               (forall x, head default_title = Some x -> is_quote x = false) /\
               (forall x, last default_title = Some x -> is_quote x = false)).
  { split; [discriminate|]. split; intros x Hx; vm_compute in Hx; by injection Hx as <-. }
  unfold generate_conversation_title.
  destruct msgs as [|m0 msgs]; [exact Hd|].
  destruct resp as [|[c|]]; [exact Hd| |exact Hd].
  destruct (strip_by_ends is_quote (py_strip c)) as [Hh Hl].
  destruct (strip_by is_quote (py_strip c)) as [|y r] eqn:E; [exact Hd|].
  split; [discriminate|]. split; [exact Hh|exact Hl].
Qed.

Lemma drop_app_ge {A} (l1 l2 : list A) (n : nat) :
  (length l1 <= n)%nat -> drop n (l1 ++ l2) = drop (n - length l1) l2.
Proof. intros H. by rewrite drop_app_ge. Qed.

(** The title request only sees the last six messages: messages before
    them do not change it. *)
Theorem title_messages_last_six (older recent : list message) :
  (6 <= length recent)%nat -> title_messages (older ++ recent) = title_messages recent.
Proof.
  intros H. unfold title_messages, conversation_text. rewrite length_app.
  rewrite drop_app_ge by lia.
  by replace (length older + length recent - 6 - length older)%nat
    with (length recent - 6)%nat by lia.
Qed.

(** ** Stream snapshots *)

#[local] Instance snap_grows_trans : Transitive snap_grows.
Proof.
  intros a b c [H1 H2] [H3 H4]. split; etrans; eauto.
Qed.

Ltac solve_grows :=
  repeat match goal with
  | |- Forall _ _ => constructor
  | |- StronglySorted _ _ => constructor
  | |- _ /\ _ => split
  | |- snap_grows _ _ => split
  | |- _ `prefix_of` _ =>
      solve [reflexivity | apply prefix_app_r; reflexivity |
             apply prefix_app_r, prefix_app_r; reflexivity]
  end; simpl.

(** One chunk extends the reconstructor's state, and what it yields lies
    between the old and the new state, in growing order. *)
Lemma step_chunk_grows (st : rstate) (ch : chunk) :
  snap_grows (st_snap st) (st_snap (fst (step_chunk st ch))) /\
  Forall (fun s => snap_grows (st_snap st) s /\ snap_grows s (st_snap (fst (step_chunk st ch))))
    (snd (step_chunk st ch)) /\
  StronglySorted snap_grows (snd (step_chunk st ch)).
Proof.
  unfold step_chunk, st_snap.
  destruct (ch_reasoning ch) as [rc|], (ch_content ch) as [c|]; simpl;
    try destruct (should_yield _ _ _ _); simpl; solve_grows;
    rewrite <-?app_assoc; solve_grows.
Qed.

Lemma run_chunks_grows (st : rstate) (chs : list chunk) :
  snap_grows (st_snap st) (st_snap (fst (run_chunks st chs))) /\
  Forall (fun s => snap_grows (st_snap st) s /\ snap_grows s (st_snap (fst (run_chunks st chs))))
    (snd (run_chunks st chs)) /\
  StronglySorted snap_grows (snd (run_chunks st chs)).
Proof.
  revert st. induction chs as [|ch chs IH]; intros st; simpl.
  - split; [split; reflexivity|]. split; constructor.
  - destruct (step_chunk_grows st ch) as [Hs1 [Hf1 Hss1]].
    destruct (step_chunk st ch) as [st1 ys1] eqn:E1. simpl in *.
    destruct (IH st1) as [Hs2 [Hf2 Hss2]].
    destruct (run_chunks st1 chs) as [st2 ys2] eqn:E2. simpl in *.
    split; [by etrans|]. split.
    + apply Forall_app. split.
      * eapply Forall_impl; [exact Hf1|]. intros s [Ha Hb]. split; [done|by etrans].
      * eapply Forall_impl; [exact Hf2|]. intros s [Ha Hb]. split; [by etrans|done].
    + apply StronglySorted_app_2; [|done|done].
      intros x1 x2 Hx1 Hx2.
      rewrite Forall_forall in Hf1, Hf2.
      destruct (Hf1 x1 Hx1) as [_ Ha]. destruct (Hf2 x2 Hx2) as [Hb _]. by etrans.
Qed.

(** Each snapshot [process_stream_response] yields extends every earlier
    one: the reasoning and the content shown only ever grow, by appending. *)
Theorem stream_snapshots_cumulative (t0 : Z) (chs : list chunk) :
  StronglySorted snap_grows (process_stream_response t0 chs).
Proof.
  unfold process_stream_response.
  destruct (run_chunks_grows (rstate_init t0) chs) as [_ [Hf Hss]].
  destruct (run_chunks (rstate_init t0) chs) as [st ys]. simpl in *.
  destruct (buffer st); [by rewrite app_nil_r|].
  apply StronglySorted_app_2; [|done|by repeat constructor].
  intros x1 x2 Hx1 Hx2. apply list_elem_of_singleton in Hx2 as ->.
  rewrite Forall_forall in Hf. apply (Hf x1 Hx1).
Qed.

(** ** History pairs and the request *)

Lemma build_history_assistant (a : text) (rest : list entry) :
  build_history (("assistant"%string, a) :: rest) = build_history rest.
Proof. destruct rest as [|[r2 c2] rest]; reflexivity. Qed.

Lemma build_history_turn (h a : text) (rest : list entry) :
  build_history (("user"%string, h) :: ("assistant"%string, a) :: rest) =
    (h, a) :: build_history (("assistant"%string, a) :: rest).
Proof. reflexivity. Qed.

(** For a chat display of answered turns followed by the new user message,
    the pairing loop of [respond] recovers exactly the turns, so the request
    replays the display after the system prompt; a user message left
    without a reply just before the new one is not sent. *)
Theorem respond_request_replays_chat (sys : text) (ps : list (text * text)) (u msg : text) :
  build_history (pairs_chat ps ++ [("user"%string, msg)]) = ps /\
  request_messages sys (build_history (pairs_chat ps ++ [("user"%string, msg)])) msg =
    [("system"%string, sys)] ++ pairs_chat ps ++ [("user"%string, msg)] /\
  build_history (pairs_chat ps ++ [("user"%string, u); ("user"%string, msg)]) = ps.
Proof.
  assert (Hgen : forall tl, build_history tl = [] -> build_history (pairs_chat ps ++ tl) = ps).
  { intros tl Htl. induction ps as [|[h a] ps IH]; [done|].
    change (pairs_chat ((h, a) :: ps) ++ tl) with
      (("user"%string, h) :: ("assistant"%string, a) :: (pairs_chat ps ++ tl)).
    by rewrite build_history_turn, build_history_assistant, IH. }
  split; [|split].
  - by apply Hgen.
  - rewrite Hgen by done. reflexivity.
  - by apply Hgen.
Qed.

(** ** Prompt templates *)

(** The system prompt lookup fails with [KeyError] exactly when there is no
    ["default"] template, even for a template that exists; otherwise it
    gives the requested template's prompt, or the default one for an
    unknown template. *)
Theorem select_system_prompt_spec (prompts : gmap string prompt) (template : string) :
  (select_system_prompt prompts template = None <-> prompts !! "default"%string = None) /\
  (forall d p, prompts !! "default"%string = Some d -> prompts !! template = Some p ->
     select_system_prompt prompts template = Some (system p)) /\
  (forall d, prompts !! "default"%string = Some d -> prompts !! template = None ->
     select_system_prompt prompts template = Some (system d)).
Proof.
  unfold select_system_prompt. split; [|split].
  - destruct (prompts !! "default"%string); split; done.
  - intros d p Hd Hp. by rewrite Hd, Hp.
  - intros d Hd Hp. by rewrite Hd, Hp.
Qed.

(** Without a readable [prompt.json], [load_prompts] falls back to the
    built-in default template, and every template name then selects the
    built-in default system prompt. *)
Theorem load_prompts_fallback (file : option (option (gmap string prompt))) (template : string) :
  (file = None \/ file = Some None) ->
  select_system_prompt (load_prompts file) template = Some (system builtin_default).
Proof.
  intros Hf. assert (Hl : load_prompts file = {[ "default"%string := builtin_default ]})
    by (destruct Hf as [-> | ->]; reflexivity).
  rewrite Hl. unfold select_system_prompt. rewrite lookup_singleton_eq. simpl.
  destruct (decide (template = "default"%string)) as [->|Hne].
  - by rewrite lookup_singleton_eq.
  - by rewrite lookup_singleton_ne.
Qed.

(** [update_prompt_json] always writes a ["default"] and a ["reasoner"]
    template; every new template is written as given, overriding an
    existing one; ["default"] and ["reasoner"] not among the new ones keep
    their existing value or get the built-in one; any other existing
    template that is not among the new ones is dropped. *)
Theorem update_prompt_json_spec (existing : option (gmap string prompt))
    (new_prompts : gmap string prompt) :
  is_Some (update_prompt_json existing new_prompts !! "default"%string) /\
  is_Some (update_prompt_json existing new_prompts !! "reasoner"%string) /\
  (forall k p, new_prompts !! k = Some p -> update_prompt_json existing new_prompts !! k = Some p) /\
  (new_prompts !! "default"%string = None ->
     update_prompt_json existing new_prompts !! "default"%string =
       Some (default builtin_default (default ∅ existing !! "default"%string))) /\
  (new_prompts !! "reasoner"%string = None ->
     update_prompt_json existing new_prompts !! "reasoner"%string =
       Some (default builtin_reasoner (default ∅ existing !! "reasoner"%string))) /\
  (forall k, k <> "default"%string -> k <> "reasoner"%string ->
     update_prompt_json existing new_prompts !! k = new_prompts !! k).
Proof.
  unfold update_prompt_json.
  set (base := <[ "reasoner"%string := default builtin_reasoner
                    (default ∅ existing !! "reasoner"%string) ]>
               {[ "default"%string := default builtin_default
                    (default ∅ existing !! "default"%string) ]} : gmap string prompt).
  assert (Hbd : base !! "default"%string =
                Some (default builtin_default (default ∅ existing !! "default"%string))).
  { unfold base. rewrite lookup_insert_ne by discriminate. by rewrite lookup_singleton_eq. }
  assert (Hbr : base !! "reasoner"%string =
                Some (default builtin_reasoner (default ∅ existing !! "reasoner"%string))).
  { unfold base. by rewrite lookup_insert_eq. }
  assert (Hbo : forall k, k <> "default"%string -> k <> "reasoner"%string -> base !! k = None).
  { intros k H1 H2. unfold base. rewrite lookup_insert_ne by congruence.
    by rewrite lookup_singleton_ne by congruence. }
  split; [|split; [|split; [|split; [|split]]]].
  - rewrite lookup_union, Hbd. destruct (new_prompts !! _); simpl; by eexists.
  - rewrite lookup_union, Hbr. destruct (new_prompts !! _); simpl; by eexists.
  - intros k p Hk. rewrite lookup_union, Hk. by destruct (base !! k).
  - intros Hn. by rewrite lookup_union, Hn, Hbd.
  - intros Hn. by rewrite lookup_union, Hn, Hbr.
  - intros k H1 H2. rewrite lookup_union, (Hbo k H1 H2).
    by destruct (new_prompts !! k).
Qed.

(** A prompt table written by [update_prompt_json] always has a
    ["default"] template, so the system prompt lookup of
    [generate_response] never fails on it, whatever the template name. *)
Theorem update_prompt_json_select_ok (existing : option (gmap string prompt))
    (new_prompts : gmap string prompt) (template : string) :
  is_Some (select_system_prompt (update_prompt_json existing new_prompts) template).
Proof.
  unfold select_system_prompt, update_prompt_json.
  rewrite lookup_union, lookup_insert_ne by discriminate. rewrite lookup_singleton_eq.
  destruct (new_prompts !! "default"%string); simpl; by eexists.
Qed.

(** ** [generate_response] and the store *)

Lemma process_stream_last_all (t0 : Z) (chs : list chunk) :
  all_content chs <> [] ->
  exists s, last (process_stream_response t0 chs) = Some s /\ snd s = all_content chs.
Proof.
  intros Hne.
  pose proof (run_chunks_full (rstate_init t0) chs) as Hfull.
  pose proof (run_chunks_inv (rstate_init t0) None chs ltac:(done)) as Hinv.
  unfold process_stream_response.
  destruct (run_chunks (rstate_init t0) chs) as [st ys]. simpl in *.
  unfold flush_inv, last_or in Hinv.
  destruct (buffer st) as [|b bs] eqn:Hb.
  - rewrite app_nil_r. specialize (Hinv eq_refl).
    destruct (last ys) as [s'|]; [by exists s'; split; [|congruence]|congruence].
  - rewrite last_app. simpl. eexists. split; [reflexivity|]. by simpl.
Qed.

Lemma final_content_last (snaps : list snapshot) (s : snapshot) :
  last snaps = Some s -> snd s <> [] -> final_content snaps = snd s.
Proof.
  intros Hl Hne. apply last_Some in Hl as [l' ->]. unfold final_content.
  rewrite foldl_app. simpl. by destruct (snd s).
Qed.

Lemma blank_nil : blank [] = true.
Proof. reflexivity. Qed.

(** When the request succeeds and the streamed content is not blank,
    [generate_response] leaves the active conversation ending with an
    assistant message holding all the content fragments, concatenated. *)
Theorem generate_response_stores_reply (now new_id : string) (t0 : Z) (message : text)
    (attempt : nat -> api_result) (m : manager) (cid : string) (conv : conversation)
    (chs : list chunk) :
  current_conversation_id m = Some cid -> conversations m !! cid = Some conv ->
  snd (run_retries attempt) = Connected chs -> blank (all_content chs) = false ->
  exists conv' ts,
    conversations (snd (generate_response now new_id t0 message attempt m)) !! cid = Some conv' /\
    last (messages conv') = Some (mkMessage "assistant" (all_content chs) ts).
Proof.
  intros Hcur Hc Hrun Hb.
  assert (Hne : all_content chs <> []) by (intros E; rewrite E in Hb; discriminate).
  destruct (process_stream_last_all t0 chs Hne) as [s [Hl Hs]].
  assert (Hfc : final_content (process_stream_response t0 chs) = all_content chs)
    by (rewrite <-Hs; apply final_content_last; congruence).
  unfold generate_response. rewrite Hcur. simpl. rewrite !Hcur. simpl.
  rewrite Hrun, Hfc.
  pose proof (add_message_keeps now (conversations m) cid "user" message
                ltac:(by eexists)) as [conv2 Hc2].
  destruct (add_message_last now _ cid conv2 "assistant" (all_content chs) Hc2 Hb)
    as [conv3 [ts [Hc3 Hl3]]].
  destruct (all_content chs) as [|z zs]; [done|]. simpl.
  by exists conv3, ts.
Qed.

Lemma add_message_unknown (now : string) (convs : gmap string conversation) (cid r : string)
    (c : text) :
  convs !! cid = None -> add_message now convs cid r c = (false, convs).
Proof. intros H. unfold add_message. by rewrite H. Qed.

(** Loading a conversation id that is not in the store (a stale list entry)
    shows an empty chat and makes that id the manager's current one; a
    reply generated afterwards is streamed but nothing is stored: neither
    the user message nor the reply. *)
Theorem load_unknown_then_generate_stores_nothing (cid : string) (m : manager)
    (now new_id : string) (t0 : Z) (message : text) (attempt : nat -> api_result) :
  cid <> EmptyString -> conversations m !! cid = None ->
  (load_conversation (Some cid) m).1.1.1 = [] /\
  current_conversation_id (load_conversation (Some cid) m).2 = Some cid /\
  conversations (snd (generate_response now new_id t0 message attempt
                        (load_conversation (Some cid) m).2)) = conversations m.
Proof.
  intros Hid Hc. destruct cid as [|a s]; [done|].
  unfold load_conversation, get_conversation_history. simpl. rewrite Hc.
  split; [done|]. split; [done|].
  unfold generate_response. simpl.
  rewrite (add_message_unknown now _ _ "user" message Hc). simpl.
  destruct (snd (run_retries attempt)) as [chs|e|]; simpl.
  - destruct (final_content (process_stream_response t0 chs)); [done|].
    simpl. by rewrite add_message_unknown.
  - by rewrite add_message_unknown.
  - done.
Qed.

(** ** Send and edit handlers *)

Lemma turn_shape (now : string) (pre : list message) (mu : message) (tail0 : list message) :
  role mu = "user"%string ->
  (tail0 = [] \/ exists x, tail0 = [mkMessage "assistant" x now]) ->
  retry_shape pre (pre ++ [mu] ++ tail0).
Proof.
  intros Hmu Ht. exists mu, tail0. split; [done|]. split; [done|].
  destruct Ht as [->|[x ->]]; split; [constructor|simpl; lia|by repeat constructor|simpl; lia].
Qed.

(** The caller's own updates after the stream ([update_last_message] with
    the answer, then the title) keep the shape of a turn. *)
Lemma finish_turn_shape (now : string) (convs : gmap string conversation) (cid : string)
    (title_resp : completion) (conv2 : conversation) (pre : list message) (mu : message)
    (tail0 : list message) (ans : text) :
  convs !! cid = Some conv2 -> messages conv2 = pre ++ [mu] ++ tail0 ->
  role mu = "user"%string ->
  (tail0 = [] \/ exists x, tail0 = [mkMessage "assistant" x now]) ->
  exists ms', messages <$> snd (update_title_with_ai (snd (update_last_message now convs cid ans))
                                  cid title_resp) !! cid = Some ms' /\
              retry_shape pre ms'.
Proof.
  intros Hc Hm Hmu Ht. rewrite update_title_messages.
  destruct Ht as [->|[x ->]].
  - rewrite app_nil_r in Hm.
    rewrite (update_last_message_split now convs cid conv2 pre mu ans Hc Hm).
    rewrite lookup_insert_eq. eexists. split; [reflexivity|]. simpl.
    rewrite <-(app_nil_r (pre ++ _)), <-app_assoc.
    apply (turn_shape now); [by rewrite Hmu|by left].
  - rewrite app_assoc in Hm.
    rewrite (update_last_message_split now convs cid conv2 (pre ++ [mu]) _ ans Hc Hm).
    rewrite lookup_insert_eq. eexists. split; [reflexivity|]. simpl.
    rewrite <-app_assoc. apply (turn_shape now); [done|right; by eexists].
Qed.

Lemma retry_shape_count (pre ms : list message) :
  retry_shape pre ms -> count_users ms = S (count_users pre).
Proof. intros [mu [tail [-> [Hmu [Ht _]]]]]. by apply count_users_turn. Qed.

(** Sending a non-empty message in a conversation that is the UI's and the
    manager's active one, and whose last stored message is not that same
    user message: the store gains the user message once (although both
    [respond] and [generate_response] add it), followed by at most one
    assistant message.  The chat display yielded last gains the user message
    and the reply, the snapshot stack gains the display as it was with the
    user message, and the history index points at that snapshot; only when
    the stream yields no snapshot does [respond] yield nothing, so the
    display, the stack and the index keep their old values. *)
Theorem respond_stores_turn (now new_id : string) (t0 : Z) (attempt : nat -> api_result)
    (title_resp : completion) (msg : text) (chat : list entry) (cid : string)
    (mh : list (list entry)) (idx : Z) (m : manager) (conv : conversation) :
  blank msg = false -> is_dup conv "user" msg = false -> cid <> EmptyString ->
  current_conversation_id m = Some cid -> conversations m !! cid = Some conv ->
  match respond now new_id t0 attempt title_resp msg chat (Some cid) mh idx m with
  | (chat', cid', mh', idx', m') =>
      cid' = Some cid /\
      (exists ms', messages <$> conversations m' !! cid = Some ms' /\
        retry_shape (messages conv) ms' /\ count_users ms' = S (count_users (messages conv))) /\
      (((exists answer, chat' = chat ++ [("user"%string, msg); ("assistant"%string, answer)]) /\
        mh' = mh ++ [chat ++ [("user"%string, msg)]] /\ idx' = Z.of_nat (length mh)) \/
       (chat' = chat /\ mh' = mh /\ idx' = idx /\
        exists chs, snd (run_retries attempt) = Connected chs /\
          process_stream_response t0 chs = []))
  end.
Proof.
  intros Hb Hd Hid Hcur Hc.
  unfold respond.
  destruct msg as [|z zs]; [done|].
  destruct cid as [|a s]; [done|]. cbn [ui_id].
  set (cid := String a s) in *.
  rewrite (add_message_known now (conversations m) cid conv _ _ Hc), Hb, Hd.
  set (conv1 := set_messages conv (messages conv ++ [mkMessage "user" (z :: zs) now]) now).
  set (m1 := {| conversations := snd (true, <[cid:=conv1]> (conversations m));
                current_conversation_id := current_conversation_id m |}).
  assert (Hc1 : conversations m1 !! cid = Some conv1) by apply lookup_insert_eq.
  assert (Hl1 : last (messages conv1) = Some (mkMessage "user" (z :: zs) now))
    by (unfold conv1, set_messages; simpl; by rewrite last_app).
  destruct (generate_response_after_user now new_id t0 (z :: zs) attempt m1 cid conv1 now
              Hcur Hc1 Hl1) as [_ Hconv2].
  assert (Hgen : exists conv2 tail0,
            conversations (snd (generate_response now new_id t0 (z :: zs) attempt m1)) !! cid
              = Some conv2 /\
            messages conv2 = messages conv ++ [mkMessage "user" (z :: zs) now] ++ tail0 /\
            (tail0 = [] \/ exists x, tail0 = [mkMessage "assistant" x now])).
  { destruct Hconv2 as [H|[x H]]; rewrite H.
    - exists conv1, []. rewrite app_nil_r. split; [done|]. split; [done|]. by left.
    - eexists _, [mkMessage "assistant" x now]. rewrite lookup_insert_eq.
      split; [done|]. split; [simpl; by rewrite <-app_assoc|]. right. by eexists. }
  destruct Hgen as [conv2 [tail0 [Hc2 [Hms2 Htail0]]]].
  pose proof (generate_response_silent now new_id t0 (z :: zs) attempt m1 cid Hcur) as Hsil.
  destruct (generate_response now new_id t0 (z :: zs) attempt m1) as [ys m2].
  simpl in Hc2, Hsil.
  rewrite length_app. simpl.
  destruct (streamed_answer ys) as [|w ws] eqn:Hans.
  - assert (Hst : exists ms', messages <$> conversations m2 !! cid = Some ms' /\
              retry_shape (messages conv) ms' /\
              count_users ms' = S (count_users (messages conv))).
    { exists (messages conv2). rewrite Hc2. split; [done|].
      assert (Hs : retry_shape (messages conv) (messages conv2))
        by (rewrite Hms2; by apply (turn_shape now)).
      split; [done|]. by apply retry_shape_count. }
    destruct ys as [|y ys'].
    + split; [done|]. split; [exact Hst|]. right.
      destruct (Hsil eq_refl) as [chs [Hrun [Hp _]]].
      split; [done|]. split; [done|]. split; [done|]. by exists chs.
    + split; [done|]. split; [exact Hst|]. left.
      split; [exists []; by rewrite <-app_assoc|]. split; [done|]. lia.
  - split; [done|]. split.
    + destruct (finish_turn_shape now (conversations m2) cid title_resp conv2 (messages conv)
                  (mkMessage "user" (z :: zs) now) tail0 (w :: ws) Hc2 Hms2 eq_refl Htail0)
        as [ms' [Hms' Hs]].
      exists ms'. split; [exact Hms'|]. split; [done|]. by apply retry_shape_count.
    + left. split; [exists (w :: ws); by rewrite <-app_assoc|]. split; [done|]. lia.
Qed.

Lemma set_last_user_turn (pre_chat : list entry) (u a e : text) :
  set_last_user (pre_chat ++ [("user"%string, u); ("assistant"%string, a)]) e =
    Some (pre_chat ++ [("user"%string, e); ("assistant"%string, a)]).
Proof.
  induction pre_chat as [|[r c] pre_chat IH]; [reflexivity|]. simpl. by rewrite IH.
Qed.

Lemma assistant_after_user (now : string) (convs : gmap string conversation) (cid : string)
    (conv1 : conversation) (mu : message) (x : text) :
  convs !! cid = Some conv1 -> last (messages conv1) = Some mu -> role mu = "user"%string ->
  exists conv3 tail0, snd (add_message now convs cid "assistant" x) !! cid = Some conv3 /\
    messages conv3 = messages conv1 ++ tail0 /\
    (tail0 = [] \/ exists y, tail0 = [mkMessage "assistant" y now]).
Proof.
  intros Hc Hl Hr.
  destruct (add_message_after_user now convs cid conv1 x mu Hc Hl Hr) as [H|H]; rewrite H.
  - exists conv1, []. rewrite app_nil_r. split; [done|]. split; [done|]. by left.
  - eexists _, _. rewrite lookup_insert_eq. split; [reflexivity|]. split; [reflexivity|].
    right. by eexists.
Qed.

(** [generate_response] for a message that the store takes (not blank, not
    a repeat of the last message) appends it, then at most one assistant
    message. *)
Lemma generate_response_new_user (now new_id : string) (t0 : Z) (e : text)
    (attempt : nat -> api_result) (m : manager) (cid : string) (conv : conversation) :
  current_conversation_id m = Some cid -> conversations m !! cid = Some conv ->
  blank e = false -> is_dup conv "user" e = false ->
  exists conv3 tail0,
    conversations (snd (generate_response now new_id t0 e attempt m)) !! cid = Some conv3 /\
    messages conv3 = messages conv ++ [mkMessage "user" e now] ++ tail0 /\
    (tail0 = [] \/ exists y, tail0 = [mkMessage "assistant" y now]).
Proof.
  intros Hcur Hc Hb Hd.
  unfold generate_response. rewrite Hcur. simpl. rewrite !Hcur. simpl.
  rewrite (add_message_known now (conversations m) cid conv _ _ Hc), Hb, Hd. simpl.
  set (conv1 := set_messages conv (messages conv ++ [mkMessage "user" e now]) now).
  assert (Hc1 : <[cid:=conv1]> (conversations m) !! cid = Some conv1) by apply lookup_insert_eq.
  assert (Hl1 : last (messages conv1) = Some (mkMessage "user" e now))
    by (unfold conv1, set_messages; simpl; by rewrite last_app).
  assert (Hnone : exists conv3 tail0, Some conv1 = Some conv3 /\
            messages conv3 = messages conv ++ [mkMessage "user" e now] ++ tail0 /\
            (tail0 = [] \/ exists y, tail0 = [mkMessage "assistant" y now])).
  { exists conv1, []. rewrite app_nil_r. split; [done|]. split; [done|]. by left. }
  assert (Hadd : forall x, exists conv3 tail0,
            snd (add_message now (<[cid:=conv1]> (conversations m)) cid "assistant" x) !! cid
              = Some conv3 /\
            messages conv3 = messages conv ++ [mkMessage "user" e now] ++ tail0 /\
            (tail0 = [] \/ exists y, tail0 = [mkMessage "assistant" y now])).
  { intros x. destruct (assistant_after_user now _ cid conv1 _ x Hc1 Hl1 eq_refl)
      as [conv3 [tail0 [H1 [H2 H3]]]].
    exists conv3, tail0. split; [done|]. split; [|done]. rewrite H2. simpl. by rewrite <-app_assoc. }
  destruct (snd (run_retries attempt)) as [chs|err|]; simpl.
  - destruct (final_content (process_stream_response t0 chs)) as [|w ws]; simpl.
    + rewrite Hc1. exact Hnone.
    + apply Hadd.
  - apply Hadd.
  - rewrite Hc1. exact Hnone.
Qed.

(** Saving an edit [e] (not blank, different from the original [u]) of the
    last turn of the UI's and the manager's active conversation: the stored
    original user message [u] stays, the edited message is stored after it,
    then at most one new assistant message, so the store holds one more user
    message than before.  The chat display yielded last shows [e] and the
    new reply in place of [u] and the old reply; only when the stream
    yields no snapshot is nothing yielded and the old display stays. *)
Theorem save_edited_keeps_original (now new_id : string) (t0 : Z)
    (attempt : nat -> api_result) (title_resp : completion)
    (pre_chat : list entry) (u a e : text) (m : manager) (cid : string)
    (conv : conversation) (pre : list message) (a' : text) (ts1 ts2 : string) :
  blank e = false -> e <> u ->
  current_conversation_id m = Some cid -> conversations m !! cid = Some conv ->
  messages conv = pre ++ [mkMessage "user" u ts1; mkMessage "assistant" a' ts2] ->
  (exists ms',
     messages <$> conversations
       (snd (save_edited_message now new_id t0 attempt title_resp e
               (pre_chat ++ [("user"%string, u); ("assistant"%string, a)]) (Some cid) m))
       !! cid = Some ms' /\
     retry_shape (pre ++ [mkMessage "user" u ts1]) ms' /\
     count_users ms' = S (count_users (messages conv))) /\
  ((exists answer,
      fst (save_edited_message now new_id t0 attempt title_resp e
             (pre_chat ++ [("user"%string, u); ("assistant"%string, a)]) (Some cid) m)
        = pre_chat ++ [("user"%string, e); ("assistant"%string, answer)]) \/
   (fst (save_edited_message now new_id t0 attempt title_resp e
           (pre_chat ++ [("user"%string, u); ("assistant"%string, a)]) (Some cid) m)
      = pre_chat ++ [("user"%string, u); ("assistant"%string, a)] /\
    exists chs, snd (run_retries attempt) = Connected chs /\
      process_stream_response t0 chs = [])).
Proof.
  intros Hb Hne Hcur Hc Hm.
  assert (He : e <> []) by (intros ->; discriminate).
  assert (Hcount : count_users (messages conv) = count_users (pre ++ [mkMessage "user" u ts1])).
  { rewrite Hm. change [mkMessage "user" u ts1; mkMessage "assistant" a' ts2] with
      ([mkMessage "user" u ts1] ++ [mkMessage "assistant" a' ts2]).
    rewrite (count_users_turn pre _ (mkMessage "user" u ts1) eq_refl) by (by repeat constructor).
    rewrite <-(app_nil_r [mkMessage "user" u ts1]), app_assoc.
    rewrite <-app_assoc, (count_users_turn pre [] (mkMessage "user" u ts1) eq_refl)
      by constructor. done. }
  unfold save_edited_message.
  rewrite bool_decide_eq_false_2 by done.
  rewrite bool_decide_eq_false_2 by (destruct pre_chat; discriminate). simpl orb.
  cbv iota beta.
  rewrite set_last_user_turn. cbn [on_ui_id].
  assert (HmA : messages conv = (pre ++ [mkMessage "user" u ts1]) ++ [mkMessage "assistant" a' ts2])
    by (rewrite Hm, <-app_assoc; reflexivity).
  rewrite (update_last_message_split now _ cid conv _ _ e Hc HmA). simpl role.
  set (convA := set_messages conv ((pre ++ [mkMessage "user" u ts1]) ++
                                   [mkMessage "assistant" e now]) now).
  rewrite last_is_assistant_turn.
  rewrite removelast_app by discriminate. simpl removelast.
  cbn [conversations current_conversation_id].
  rewrite (remove_last_snoc now _ cid convA (pre ++ [mkMessage "user" u ts1])
             (mkMessage "assistant" e now) (lookup_insert_eq _ _ _) eq_refl).
  simpl snd.
  set (convB := set_messages convA (pre ++ [mkMessage "user" u ts1]) now).
  set (m2 := {| conversations := <[cid:=convB]> (<[cid:=convA]> (conversations m));
                current_conversation_id := current_conversation_id m |}).
  assert (Hc2 : conversations m2 !! cid = Some convB) by apply lookup_insert_eq.
  assert (Hd2 : is_dup convB "user" e = false).
  { unfold is_dup, convB, set_messages. simpl. rewrite last_snoc. simpl.
    unfold text_eqb. by rewrite bool_decide_eq_false_2 by congruence. }
  destruct (generate_response_new_user now new_id t0 e attempt m2 cid convB Hcur Hc2 Hb Hd2)
    as [conv3 [tail0 [Hc3 [Hms3 Htail0]]]].
  pose proof (generate_response_silent now new_id t0 e attempt m2 cid Hcur) as Hsil.
  destruct (generate_response now new_id t0 e attempt m2) as [ys m3].
  simpl in Hc3, Hsil.
  assert (HmsB : messages convB = pre ++ [mkMessage "user" u ts1]) by reflexivity.
  rewrite HmsB in Hms3.
  destruct (streamed_answer ys) as [|w ws] eqn:Hans; cbn [fst snd].
  - split.
    + exists (messages conv3). rewrite Hc3. split; [done|].
      assert (Hs : retry_shape (pre ++ [mkMessage "user" u ts1]) (messages conv3))
        by (rewrite Hms3; by apply (turn_shape now)).
      split; [done|]. rewrite Hcount. by apply retry_shape_count.
    + destruct ys as [|y ys'].
      * right. split; [done|]. destruct (Hsil eq_refl) as [chs [Hrun [Hp _]]]. by exists chs.
      * left. exists []. simpl. by rewrite <-app_assoc.
  - split.
    + destruct (finish_turn_shape now (conversations m3) cid title_resp conv3
                  (pre ++ [mkMessage "user" u ts1]) (mkMessage "user" e now) tail0 (w :: ws)
                  Hc3 Hms3 eq_refl Htail0) as [ms' [Hms' Hs]].
      exists ms'. split; [exact Hms'|]. split; [done|]. rewrite Hcount.
      by apply retry_shape_count.
    + left. exists (w :: ws). simpl. by rewrite <-app_assoc.
Qed.

(** ** Deleting from the UI *)

(** The UI's delete handler with an empty selection only clears the id box;
    with an id it removes that conversation, then creates an empty one and
    makes it current and selected; every other conversation is kept. *)
Theorem delete_conversation_ui_spec (now new_id : string) (cid : string) (m : manager) :
  delete_conversation_ui now new_id None m = (EmptyString, m) /\
  (cid <> EmptyString ->
   fst (delete_conversation_ui now new_id (Some cid) m) = new_id /\
   current_conversation_id (snd (delete_conversation_ui now new_id (Some cid) m)) = Some new_id /\
   get_conversation_history (conversations (snd (delete_conversation_ui now new_id (Some cid) m)))
     new_id = [] /\
   (cid <> new_id -> conversations (snd (delete_conversation_ui now new_id (Some cid) m)) !! cid
                      = None) /\
   (forall k, k <> cid -> k <> new_id ->
      conversations (snd (delete_conversation_ui now new_id (Some cid) m)) !! k =
        conversations m !! k)).
Proof.
  split; [done|]. intros Hid.
  destruct cid as [|ch cs]; [done|].
  unfold delete_conversation_ui, get_conversation_history. cbn [ui_id].
  set (cid := String ch cs).
  assert (Hdel : forall k, snd (delete_conversation (conversations m) cid) !! k =
                           if decide (k = cid) then None else conversations m !! k).
  { intros k. unfold delete_conversation. destruct (conversations m !! cid) eqn:Hc; simpl.
    - destruct (decide (k = cid)) as [->|Hk]; [by rewrite lookup_delete_eq|].
      by rewrite lookup_delete_ne.
    - destruct (decide (k = cid)) as [->|Hk]; done. }
  simpl. rewrite lookup_insert_eq. simpl.
  split; [done|]. split; [done|]. split; [done|]. split.
  - intros Hne. rewrite lookup_insert_ne by congruence. rewrite Hdel.
    by rewrite decide_True.
  - intros k Hk1 Hk2. rewrite lookup_insert_ne by congruence. rewrite Hdel.
    by rewrite decide_False.
Qed.
